(** * TaskBoard: the drag-and-drop board of [src/TaskBoard.tsx]

    A shallow embedding of the component's handlers ([onDragEnd],
    [fetchTaskLists], [addTaskList], [addTask]) as functions of the React
    state [taskLists] and of what the environment supplies (the drop result,
    the prompt's answer, a fresh uuid, the response of the remote store).
    A handler returns the next state together with the requests it sends to
    the remote store, in the order it sends them. *)

From stdpp Require Import base decidable option list strings gmap fin_maps.
From Stdlib Require Import ZArith Lia.

Open Scope string_scope.
Open Scope list_scope.
Open Scope nat_scope.
Open Scope stdpp_scope.

(** ** Data model (the interfaces [Task] and [TaskList]) *)

Record Task := mkTask {
  task_id : string;   (* Task.id *)
  content : string;
  list_id : string;
}.

Record TaskList := mkTaskList {
  tl_id : string;     (* TaskList.id *)
  title : string;
  tasks : list Task;
}.

(** The state held by [useState<TaskList[]>]. *)
Abbreviation Board := (list TaskList).

Global Instance Task_eq_dec : EqDecision Task.
Proof. solve_decision. Defined.

Global Instance TaskList_eq_dec : EqDecision TaskList.
Proof. solve_decision. Defined.

(** ** Requests to the remote store

    An object literal is the list of its fields in the order written. *)

Inductive Value :=
  | VStr (s : string)
  | VNum (n : nat).

Global Instance Value_eq_dec : EqDecision Value.
Proof. solve_decision. Defined.

Abbreviation Object := (list (string * Value)).

(** [supabase.from(t).update(values).eq(column, value)] *)
Record Update := mkUpdate {
  upd_from : string;
  upd_values : Object;
  upd_eq : string * Value;
}.

(** [supabase.from(t).insert(rows)] *)
Record Insert := mkInsert {
  ins_from : string;
  ins_rows : list Object;
}.

Global Instance Update_eq_dec : EqDecision Update.
Proof. solve_decision. Defined.

(** ** The drop result handed over by the drag-and-drop library *)

Record Location := mkLocation {
  droppableId : string;
  index : Z;
}.

Record DropResult := mkDropResult {
  type : string;
  source : Location;
  destination : option Location;   (* null when dropped outside a target *)
}.

(** ** [Array.prototype.splice]

    [relative_start] is the clamping of the start argument: a negative start
    counts from the end, and the result lies in [0, len]. *)

Definition relative_start (len : nat) (start : Z) : nat :=
  if decide (start < 0)%Z
  then Z.to_nat (Z.max (Z.of_nat len + start) 0)
  else Z.to_nat (Z.min start (Z.of_nat len)).

(** [a.splice(start, deleteCount, ...items)]: the removed elements and the
    array as it is afterwards. *)
Definition splice {A} (a : list A) (start : Z) (deleteCount : nat)
    (items : list A) : list A * list A :=
  let k := relative_start (length a) start in
  let d := deleteCount `min` (length a - k) in
  (take d (drop k a), take k a ++ items ++ drop (k + d) a).

(** ** [onDragEnd] *)

(** What the arrays hold at run time: an entry may be [undefined], which is
    how a splice stores an element that was never there. *)
Record RawTaskList := mkRaw {
  raw_id : string;
  raw_title : string;
  raw_tasks : list (option Task);
}.

Abbreviation RawBoard := (list (option RawTaskList)).

Definition raw (l : TaskList) : RawTaskList :=
  mkRaw (tl_id l) (title l) (Some <$> tasks l).

Definition raw_board (b : Board) : RawBoard := (λ l, Some (raw l)) <$> b.

Global Instance RawTaskList_eq_dec : EqDecision RawTaskList.
Proof. solve_decision. Defined.

(** How a run of the handler ends. [Returned] carries the state the
    component is left with and the updates sent. [TypeError] is the
    rejection raised by reading or writing a property of [undefined]; it
    carries what the lists hold at that point, holes included, and the
    updates sent before the throw. *)
Inductive Outcome :=
  | Returned (taskLists : Board) (writes : list Update)
  | TypeError (memory : RawBoard) (writes : list Update).

Global Instance Outcome_eq_dec : EqDecision Outcome.
Proof. solve_decision. Defined.

(** The loop of the list branch: one update per entry, at its index. *)
Definition list_writes (updatedLists : Board) : list Update :=
  imap (λ i l, mkUpdate "task_lists" [("position", VNum i)]
                        ("id", VStr (tl_id l))) updatedLists.

(** The loop of the task branch, over [destList.tasks]. *)
Definition task_writes (dest_id : string) (ts : list Task) : list Update :=
  imap (λ i t, mkUpdate "tasks"
                        [("position", VNum i); ("list_id", VStr dest_id)]
                        ("id", VStr (task_id t))) ts.

(** [updatedLists.find((list) => list.id === id)], with the index of the
    entry found: the entry is an object, and the index stands for the
    reference to it. *)
Definition find_list (id : string) (taskLists : Board) : option (nat * TaskList) :=
  list_find (λ l, tl_id l = id) taskLists.

Definition with_tasks (l : TaskList) (ts : list Task) : TaskList :=
  mkTaskList (tl_id l) (title l) ts.

Definition with_list_id (t : Task) (id : string) : Task :=
  mkTask (task_id t) (content t) id.

Definition reorder_lists (taskLists : Board) (src dst : Location) : Outcome :=
  let '(removed, updatedLists) := splice taskLists (index src) 1 [] in
  match head removed with
  | Some movedList =>
      let '(_, updatedLists) := splice updatedLists (index dst) 0 [movedList] in
      Returned updatedLists (list_writes updatedLists)
  | None =>
      (* [movedList] is undefined and is spliced in as such; the state is
         set to that array, the loop sends the updates of the entries before
         the hole and throws on reading the hole's id *)
      let '(_, holed) := splice (raw_board updatedLists) (index dst) 0 [None] in
      TypeError holed
        (list_writes
           (take (relative_start (length updatedLists) (index dst)) updatedLists))
  end.

Definition reorder_tasks (taskLists : Board) (src dst : Location) : Outcome :=
  match find_list (droppableId src) taskLists,
        find_list (droppableId dst) taskLists with
  | Some (si, sourceList), Some (di, destList) =>
      let '(removed, sourceTasks) := splice (tasks sourceList) (index src) 1 [] in
      (* both finds return the same object when the ids agree: the second
         splice then works on the array the first one has shortened *)
      let destTasks0 := if decide (si = di) then sourceTasks else tasks destList in
      match head removed with
      | Some movedTask =>
          let movedTask := with_list_id movedTask (tl_id destList) in
          let '(_, destTasks) := splice destTasks0 (index dst) 0 [movedTask] in
          Returned
            (<[di := with_tasks destList destTasks]>
               (<[si := with_tasks sourceList sourceTasks]> taskLists))
            (task_writes (tl_id destList) destTasks)
      | None =>
          (* undefined is spliced into [destList.tasks], in place, and
             [movedTask.list_id = ...] throws before setTaskLists *)
          let '(_, holed) := splice (Some <$> destTasks0) (index dst) 0 [None] in
          TypeError
            (<[di := Some (mkRaw (tl_id destList) (title destList) holed)]>
               (raw_board taskLists))
            []
      end
  | _, _ => Returned taskLists []
  end.

Definition onDragEnd (taskLists : Board) (result : DropResult) : Outcome :=
  match destination result with
  | None => Returned taskLists []
  | Some dst =>
      if decide (type result = "list") then
        reorder_lists taskLists (source result) dst
      else if decide (type result = "task") then
        reorder_tasks taskLists (source result) dst
      else Returned taskLists []
  end.

(** ** [fetchTaskLists] and the change subscription *)

(** [supabase.from(t).select(columns).order(column, {referencedTable, ascending})] *)
Record Select := mkSelect {
  sel_from : string;
  sel_columns : string;
  sel_order : string * string * bool;
}.

(** What the awaited query resolves to: [{ data, error }]. *)
Record PostgrestResponse := mkResponse {
  data : option Board;
  error : option string;
}.

(** An async function that awaits one query and resumes on its response. *)
Record AsyncFetch := mkAsyncFetch {
  request : Select;
  resume : PostgrestResponse → Board → Board;
}.

Definition fetchTaskLists : AsyncFetch :=
  mkAsyncFetch
    (mkSelect "task_lists" "*, tasks(*)" ("position", "tasks", true))
    (λ response taskLists,
       match error response with
       | None => default [] (data response)   (* setTaskLists(lists || []) *)
       | Some _ => taskLists
       end).

(** One [.on("postgres_changes", { event, schema, table }, callback)]. *)
Record Binding := mkBinding {
  bind_event : string;
  bind_schema : string;
  bind_table : string;
  bind_callback : AsyncFetch;
}.

(** The channel set up by [useEffect]. *)
Definition subscription : list Binding :=
  [ mkBinding "*" "public" "tasks" fetchTaskLists;
    mkBinding "*" "public" "task_lists" fetchTaskLists ].

Inductive ChangeKind := INSERT | UPDATE | DELETE.

Definition kind_name (k : ChangeKind) : string :=
  match k with INSERT => "INSERT" | UPDATE => "UPDATE" | DELETE => "DELETE" end.

Record Change := mkChange {
  ch_kind : ChangeKind;
  ch_schema : string;
  ch_table : string;
}.

(** Modelled from the spec: the delivery of change notifications belongs to
    the remote client library, outside the repository. A change of a row
    invokes the callback of every binding whose schema and table are the
    row's and whose event is the change's kind or the wildcard. *)
Definition notified (bs : list Binding) (c : Change) : list AsyncFetch :=
  bind_callback <$>
    filter (λ b, (bind_event b = "*" ∨ bind_event b = kind_name (ch_kind c))
                 ∧ bind_schema b = ch_schema c ∧ bind_table b = ch_table c) bs.

(** ** Creation and deletion

    [prompt] answers [null] or a string; [uuidv4()] is the fresh id. *)

Definition addTaskList (taskLists : Board) (answer : option string)
    (uuid : string) : list Insert :=
  match answer with
  | None | Some "" => []                       (* if (!title) return *)
  | Some title =>
      let newPosition := length taskLists in
      [mkInsert "task_lists"
         [[("id", VStr uuid); ("title", VStr title); ("position", VNum newPosition)]]]
  end.

Definition addTask (list_id : string) (answer : option string)
    (uuid : string) : list Insert :=
  match answer with
  | None | Some "" => []                       (* if (!content) return *)
  | Some content =>
      [mkInsert "tasks"
         [[("id", VStr uuid); ("content", VStr content); ("list_id", VStr list_id)]]]
  end.

(** [supabase.from(t).delete().eq(column, value)] *)
Record Delete := mkDelete {
  del_from : string;
  del_eq : string * Value;
}.

Definition deleteTaskList (list_id : string) : list Delete :=
  [mkDelete "task_lists" ("id", VStr list_id)].

Definition deleteTask (taskId : string) : list Delete :=
  [mkDelete "tasks" ("id", VStr taskId)].

(** ** The remote store

    Modelled from the spec: the tables [task_lists] and [tasks] live in the
    remote store, outside the repository. A table maps the primary key [id]
    of a row to the row, a row maps its columns to values, and
    [update(values).eq(column, value)] assigns [values] in every row whose
    [column] holds [value]. The component never assigns [id]. *)

Abbreviation Row := (gmap string Value).
Abbreviation Table := (gmap string (gmap string Value)).

Record Remote := mkRemote {
  task_lists_tbl : Table;
  tasks_tbl : Table;
}.

(** Modelled from the spec: [update(values).eq(column, value)] as the remote
    store carries it out, on one table. *)
Definition update_rows (values : Object) (filter_eq : string * Value)
    (tbl : Table) : Table :=
  (λ r : Row, if decide (r !! filter_eq.1 = Some filter_eq.2)
              then list_to_map values ∪ r else r) <$> tbl.

(** Modelled from the spec: the remote store receiving one update; a table
    name that is neither of the two changes nothing. *)
Definition persist (db : Remote) (u : Update) : Remote :=
  if decide (upd_from u = "task_lists") then
    mkRemote (update_rows (upd_values u) (upd_eq u) (task_lists_tbl db)) (tasks_tbl db)
  else if decide (upd_from u = "tasks") then
    mkRemote (task_lists_tbl db) (update_rows (upd_values u) (upd_eq u) (tasks_tbl db))
  else db.

Definition persist_all (ws : list Update) (db : Remote) : Remote :=
  foldl persist db ws.

(** Modelled from the spec: the persisted row shapes, List
    [{ id, title, position }] and Task [{ id, content, list_id, position }]. *)
Definition list_row (i : nat) (l : TaskList) : Row :=
  list_to_map [("id", VStr (tl_id l)); ("title", VStr (title l));
               ("position", VNum i)].

(** Modelled from the spec: the row of a task, filed under the list that
    holds it. *)
Definition task_row (owner : string) (i : nat) (t : Task) : Row :=
  list_to_map [("id", VStr (task_id t)); ("content", VStr (content t));
               ("list_id", VStr owner); ("position", VNum i)].

Definition list_rows (b : Board) : list (string * Row) :=
  imap (λ i l, (tl_id l, list_row i l)) b.

Definition task_rows (l : TaskList) : list (string * Row) :=
  imap (λ i t, (task_id t, task_row (tl_id l) i t)) (tasks l).

(** Modelled from the spec: the store that holds exactly the board, every
    position being the index in memory, so that the persisted positions are
    dense and match the in-memory order. *)
Definition persisted (b : Board) : Remote :=
  mkRemote (list_to_map (list_rows b)) (list_to_map (b ≫= task_rows)).

(** Ids are keys: no two lists and no two tasks of the board share one. *)
Definition distinct_ids (b : Board) : Prop :=
  NoDup (tl_id <$> b) ∧ NoDup (task_id <$> (b ≫= tasks)).

(** Every task refers to the list that holds it, as in a fetched board. *)
Definition owned (b : Board) : Prop :=
  Forall (λ l, Forall (λ t, list_id t = tl_id l) (tasks l)) b.

(** The positions of the rows selected by [P] are exactly [0 .. n-1], each
    carried by one row. *)
Definition positions_dense (tbl : Table) (P : Row → Prop) (n : nat) : Prop :=
  (∀ k r, tbl !! k = Some r → P r →
     ∃ p, r !! "position" = Some (VNum p) ∧ p < n) ∧
  (∀ p, p < n →
     ∃ k r, tbl !! k = Some r ∧ P r ∧ r !! "position" = Some (VNum p)) ∧
  (∀ k1 k2 r1 r2, tbl !! k1 = Some r1 → tbl !! k2 = Some r2 → P r1 → P r2 →
     r1 !! "position" = r2 !! "position" → k1 = k2).

Definition in_list (id : string) (r : Row) : Prop :=
  r !! "list_id" = Some (VStr id).

Definition dense_lists (db : Remote) (m : nat) : Prop :=
  positions_dense (task_lists_tbl db) (λ _, True) m.

Definition dense_tasks (db : Remote) (id : string) (n : nat) : Prop :=
  positions_dense (tasks_tbl db) (in_list id) n.

(** Every row is stored under its own id. *)
Definition keyed (tbl : Table) : Prop :=
  ∀ k r, tbl !! k = Some r → r !! "id" = Some (VStr k).

(** A run of updates against one table. *)
Definition apply_updates (ws : list Update) (tbl : Table) : Table :=
  foldl (λ tbl u, update_rows (upd_values u) (upd_eq u) tbl) tbl ws.

(** The store has a row for every list and every task of the board, the
    row of a task under the list that holds the task, and no other row.
    Nothing is said of the positions. *)
Record holds (db : Remote) (b : Board) : Prop := mkHolds {
  holds_lists_keyed : keyed (task_lists_tbl db);
  holds_tasks_keyed : keyed (tasks_tbl db);
  holds_list : ∀ li l, b !! li = Some l →
    is_Some (task_lists_tbl db !! tl_id l);
  holds_list_only : ∀ k r, task_lists_tbl db !! k = Some r → k ∈ tl_id <$> b;
  holds_task : ∀ li l p t, b !! li = Some l → tasks l !! p = Some t →
    ∃ r, tasks_tbl db !! task_id t = Some r ∧ in_list (tl_id l) r;
  holds_task_only : ∀ k r, tasks_tbl db !! k = Some r →
    ∃ li l p t, b !! li = Some l ∧ tasks l !! p = Some t ∧ task_id t = k;
}.

(** The persisted positions of a board are dense: those of its [m] lists
    are [0 .. m-1], and those of the [n] tasks of each list are
    [0 .. n-1]. *)
Definition dense (db : Remote) (b : Board) : Prop :=
  dense_lists db (length b) ∧
  ∀ l, l ∈ b → dense_tasks db (tl_id l) (length (tasks l)).

(** The source list of a move between two different lists. *)
Definition cross_list_source (result : DropResult) (id : string) : Prop :=
  type result = "task" ∧ droppableId (source result) = id ∧
  ∃ dst, destination result = Some dst ∧ droppableId dst ≠ id.

(** The updates a run has sent, however it ends. *)
Definition writes_of (o : Outcome) : list Update :=
  match o with Returned _ ws | TypeError _ ws => ws end.

(** Modelled from the spec: [delete().eq(column, value)] as the remote store
    carries it out, on the table addressed: the rows whose [column] holds
    [value] are gone. What the store does to other tables on a delete is its
    own policy and is not described. *)
Definition delete_rows (filter_eq : string * Value) (tbl : Table) : Table :=
  filter (λ kr : string * Row, kr.2 !! filter_eq.1 ≠ Some filter_eq.2) tbl.

(** ** What the component renders

    The drag-and-drop part of the returned markup: the board droppable of
    type "list" holds one draggable per list, at the list's index, and every
    list holds a droppable of type "task" named by the list's id, with one
    draggable per task, at the task's index. *)

Record Draggable := mkDraggable {
  draggableId : string;
  drag_index : nat;
}.

Record Droppable := mkDroppable {
  drop_id : string;
  drop_type : string;
  drop_items : list Draggable;
}.

Definition render (taskLists : Board) : list Droppable :=
  mkDroppable "board" "list"
    (imap (λ index l, mkDraggable (tl_id l) index) taskLists)
  :: ((λ l, mkDroppable (tl_id l) "task"
              (imap (λ index t, mkDraggable (task_id t) index) (tasks l)))
        <$> taskLists).

(** A drop result about what is rendered: its source is a rendered
    draggable, named by the droppable that holds it and its index there, and
    its destination, when there is one, is a rendered droppable of the same
    type. *)
Definition offered (taskLists : Board) (result : DropResult) : Prop :=
  (∃ src item,
     src ∈ render taskLists ∧ drop_type src = type result ∧
     drop_id src = droppableId (source result) ∧
     item ∈ drop_items src ∧
     index (source result) = Z.of_nat (drag_index item)) ∧
  (∀ dst, destination result = Some dst →
     ∃ d, d ∈ render taskLists ∧ drop_type d = type result ∧
          drop_id d = droppableId dst).

(** The responses of a run of fetches, taken in the order in which they
    complete. *)
Definition reconcile (responses : list PostgrestResponse) (taskLists : Board) : Board :=
  foldl (λ state response, resume fetchTaskLists response state) taskLists responses.

(** ** Boards and events of the examples *)

Definition L0 := mkTaskList "L0" "zero" [].
Definition L1 := mkTaskList "L1" "one" [].
Definition L2 := mkTaskList "L2" "two" [].

Definition T1 := mkTask "t1" "first" "A".
Definition T2 := mkTask "t2" "second" "A".
Definition T3 := mkTask "t3" "third" "A".
Definition U1 := mkTask "u1" "fourth" "B".
Definition U2 := mkTask "u2" "fifth" "B".

Definition boardAB : Board :=
  [ mkTaskList "A" "todo" [T1; T2; T3]; mkTaskList "B" "done" [U1; U2] ].

Definition dropped (ty : string) (s : string) (i : Z) (d : string) (j : Z) : DropResult :=
  mkDropResult ty (mkLocation s i) (Some (mkLocation d j)).

(** Task [t1] dragged from the head of list A to index 1 of list B. *)
Definition moveAB : DropResult := dropped "task" "A" 0 "B" 1.

Definition boardAB_moved : Board :=
  [ mkTaskList "A" "todo" [T2; T3];
    mkTaskList "B" "done" [U1; mkTask "t1" "first" "B"; U2] ].

Definition writesAB_moved : list Update :=
  [ mkUpdate "tasks" [("position", VNum 0); ("list_id", VStr "B")] ("id", VStr "u1");
    mkUpdate "tasks" [("position", VNum 1); ("list_id", VStr "B")] ("id", VStr "t1");
    mkUpdate "tasks" [("position", VNum 2); ("list_id", VStr "B")] ("id", VStr "u2") ].

(** ** Examples from the specification *)

Example list_reorder_0_2 :
  onDragEnd [L0; L1; L2] (dropped "list" "board" 0 "board" 2)
  = Returned [L1; L2; L0]
      [ mkUpdate "task_lists" [("position", VNum 0)] ("id", VStr "L1");
        mkUpdate "task_lists" [("position", VNum 1)] ("id", VStr "L2");
        mkUpdate "task_lists" [("position", VNum 2)] ("id", VStr "L0") ].
Proof. reflexivity. Qed.

Example cross_list_move :
  onDragEnd boardAB (dropped "task" "A" 0 "B" 1)
  = Returned
      [ mkTaskList "A" "todo" [T2; T3];
        mkTaskList "B" "done" [U1; mkTask "t1" "first" "B"; U2] ]
      [ mkUpdate "tasks" [("position", VNum 0); ("list_id", VStr "B")] ("id", VStr "u1");
        mkUpdate "tasks" [("position", VNum 1); ("list_id", VStr "B")] ("id", VStr "t1");
        mkUpdate "tasks" [("position", VNum 2); ("list_id", VStr "B")] ("id", VStr "u2") ].
Proof. reflexivity. Qed.

Example source_out_of_range_list :
  onDragEnd [L0; L1] (dropped "list" "board" 5 "board" 1)
  = TypeError [Some (raw L0); None; Some (raw L1)]
      [ mkUpdate "task_lists" [("position", VNum 0)] ("id", VStr "L0") ].
Proof. reflexivity. Qed.

Example source_out_of_range_task :
  onDragEnd boardAB (dropped "task" "A" 3 "B" 0)
  = TypeError
      [ Some (mkRaw "A" "todo" [Some T1; Some T2; Some T3]);
        Some (mkRaw "B" "done" [None; Some U1; Some U2]) ]
      [].
Proof. reflexivity. Qed.

(** A negative start counts from the end: the last list is moved. *)
Example source_negative_index :
  onDragEnd [L0; L1; L2] (dropped "list" "board" (-1) "board" 0)
  = Returned [L2; L0; L1] (list_writes [L2; L0; L1]).
Proof. reflexivity. Qed.

(** ** [splice] on the calls the handler makes *)

Section Splice.
Context {A : Type}.
Implicit Types (a : list A) (x : A) (i k : nat) (start : Z).

Lemma relative_start_le len start : relative_start len start ≤ len.
Proof. unfold relative_start. case_decide; lia. Qed.

Lemma relative_start_nat len i : i ≤ len → relative_start len (Z.of_nat i) = i.
Proof. intros ?. unfold relative_start. case_decide; lia. Qed.

Lemma relative_start_in_range len start :
  (0 ≤ start ≤ Z.of_nat len)%Z → relative_start len start = Z.to_nat start.
Proof. intros ?. unfold relative_start. case_decide; lia. Qed.

Lemma relative_start_ge len start :
  (Z.of_nat len ≤ start)%Z → relative_start len start = len.
Proof. intros ?. unfold relative_start. case_decide; lia. Qed.

(** [a.splice(start, 1)] removes the entry at the clamped start, if any. *)
Lemma splice_out a start :
  let k := relative_start (length a) start in
  splice a start 1 [] = (option_list (a !! k), delete k a).
Proof.
  intros k. unfold splice. fold k.
  pose proof (relative_start_le (length a) start) as Hk. fold k in Hk.
  destruct (a !! k) as [x|] eqn:Hx.
  - apply lookup_lt_Some in Hx as Hlt.
    replace (1 `min` (length a - k)) with 1 by lia.
    rewrite Nat.add_1_r. simpl. rewrite <-delete_take_drop. f_equal.
    rewrite (drop_S _ _ _ Hx). simpl. by rewrite take_0.
  - apply lookup_ge_None in Hx.
    replace (1 `min` (length a - k)) with 0 by lia.
    rewrite Nat.add_0_r, take_0. simpl. rewrite take_drop.
    rewrite delete_take_drop, take_ge, drop_ge by lia. by rewrite app_nil_r.
Qed.

(** [a.splice(start, 0, x)] inserts [x] at the clamped start. *)
Lemma splice_in a start x :
  let k := relative_start (length a) start in
  splice a start 0 [x] = ([], take k a ++ x :: drop k a).
Proof.
  intros k. unfold splice. fold k. simpl. by rewrite Nat.add_0_r, take_0.
Qed.

Lemma lookup_spliced_in a k x : k ≤ length a → (take k a ++ x :: drop k a) !! k = Some x.
Proof.
  intros ?. rewrite lookup_app_r; rewrite length_take; [|lia].
  by replace (k - k `min` length a) with 0 by lia.
Qed.

Lemma delete_spliced_in a k x : k ≤ length a → delete k (take k a ++ x :: drop k a) = a.
Proof.
  intros ?. rewrite delete_take_drop.
  rewrite take_app_le; rewrite ?length_take; [|lia].
  rewrite take_take, Nat.min_id.
  rewrite drop_app_ge; rewrite length_take; [|lia].
  replace (S k - k `min` length a) with 1 by lia. simpl.
  rewrite drop_0. apply take_drop.
Qed.

Lemma length_spliced_in a k x : length (take k a ++ x :: drop k a) = S (length a).
Proof. rewrite length_app, length_take. simpl. rewrite length_drop. lia. Qed.

(** Taking an entry out and putting it back where it was. *)
Lemma splice_back a k x : a !! k = Some x → take k (delete k a) ++ x :: drop k (delete k a) = a.
Proof.
  intros Hx. rewrite delete_take_drop.
  apply lookup_lt_Some in Hx as Hlt.
  rewrite take_app_le; rewrite ?length_take; [|lia].
  rewrite take_take, Nat.min_id.
  rewrite drop_app_ge; rewrite length_take; [|lia].
  replace (k - k `min` length a) with 0 by lia. rewrite drop_0.
  by rewrite <-(drop_S _ _ _ Hx), take_drop.
Qed.
End Splice.

(** ** The two reorder branches, with the splices resolved *)

Lemma reorder_lists_eq (b : Board) (src dst : Location) :
  let i := relative_start (length b) (index src) in
  let rest := delete i b in
  let j := relative_start (length rest) (index dst) in
  reorder_lists b src dst =
    match b !! i with
    | Some movedList =>
        Returned (take j rest ++ movedList :: drop j rest)
                 (list_writes (take j rest ++ movedList :: drop j rest))
    | None =>
        let j' := relative_start (length (raw_board rest)) (index dst) in
        TypeError (take j' (raw_board rest) ++ None :: drop j' (raw_board rest))
                  (list_writes (take j rest))
    end.
Proof.
  intros i rest j. unfold reorder_lists.
  rewrite splice_out. fold i. fold rest.
  destruct (b !! i) as [l|].
  - change (head (option_list (Some l))) with (Some l). cbv beta iota.
    by rewrite splice_in.
  - change (head (option_list None)) with (@None TaskList). cbv beta iota.
    by rewrite splice_in.
Qed.

Lemma reorder_tasks_eq (b : Board) (src dst : Location) si di A B :
  find_list (droppableId src) b = Some (si, A) →
  find_list (droppableId dst) b = Some (di, B) →
  let i := relative_start (length (tasks A)) (index src) in
  let srcTasks := delete i (tasks A) in
  let rest := if decide (si = di) then srcTasks else tasks B in
  let j := relative_start (length rest) (index dst) in
  reorder_tasks b src dst =
    match tasks A !! i with
    | Some T =>
        let dstTasks := take j rest ++ with_list_id T (tl_id B) :: drop j rest in
        Returned (<[di := with_tasks B dstTasks]> (<[si := with_tasks A srcTasks]> b))
                 (task_writes (tl_id B) dstTasks)
    | None =>
        let holed := Some <$> rest in
        let j' := relative_start (length holed) (index dst) in
        TypeError
          (<[di := Some (mkRaw (tl_id B) (title B)
                           (take j' holed ++ None :: drop j' holed))]>
             (raw_board b))
          []
    end.
Proof.
  intros HA HB i srcTasks rest j. unfold reorder_tasks.
  rewrite HA, HB, splice_out. fold i. fold srcTasks. fold rest.
  destruct (tasks A !! i) as [T|].
  - change (head (option_list (Some T))) with (Some T). cbv beta iota zeta.
    by rewrite splice_in.
  - change (head (option_list None)) with (@None Task). cbv beta iota zeta.
    by rewrite splice_in.
Qed.

Lemma find_list_None (id : string) (b : Board) :
  id ∉ tl_id <$> b → find_list id b = None.
Proof.
  intros Hid. apply list_find_None, Forall_forall. intros l Hl Heq.
  apply Hid, list_elem_of_fmap. eauto.
Qed.

Lemma find_list_Some (id : string) (b : Board) i l :
  find_list id b = Some (i, l) → b !! i = Some l ∧ tl_id l = id.
Proof. intros H. apply list_find_Some in H. tauto. Qed.

Lemma lookup_list_writes (b : Board) p l :
  b !! p = Some l →
  list_writes b !! p =
    Some (mkUpdate "task_lists" [("position", VNum p)] ("id", VStr (tl_id l))).
Proof. intros H. unfold list_writes. by rewrite list_lookup_imap, H. Qed.

Lemma lookup_task_writes d (ts : list Task) p t :
  ts !! p = Some t →
  task_writes d ts !! p =
    Some (mkUpdate "tasks" [("position", VNum p); ("list_id", VStr d)]
                   ("id", VStr (task_id t))).
Proof. intros H. unfold task_writes. by rewrite list_lookup_imap, H. Qed.

(** ** Dropping outside a target, and stale targets *)

(** C8: a drag-completion event that carries no destination leaves the
    board as it is and sends no write. *)
Theorem drop_without_destination_is_noop (b : Board) (result : DropResult) :
  destination result = None → onDragEnd b result = Returned b [].
Proof. intros H. unfold onDragEnd. by rewrite H. Qed.

Lemma drop_without_destination_is_noop_witness :
  onDragEnd boardAB (mkDropResult "task" (mkLocation "A" 0) None)
  = Returned boardAB [].
Proof. apply drop_without_destination_is_noop. reflexivity. Defined.

(** C4: a task-kind event whose source container id or destination
    container id matches no list of the board leaves the board as it is and
    sends no write. *)
Theorem task_reorder_stale_target_is_noop (b : Board) (result : DropResult)
    (dst : Location) :
  type result = "task" →
  destination result = Some dst →
  droppableId (source result) ∉ tl_id <$> b ∨ droppableId dst ∉ tl_id <$> b →
  onDragEnd b result = Returned b [].
Proof.
  intros Hty Hdst Hmiss. unfold onDragEnd. rewrite Hdst, Hty.
  rewrite decide_False, decide_True by done.
  unfold reorder_tasks.
  destruct Hmiss as [H|H]; apply find_list_None in H; rewrite H.
  - done.
  - by destruct (find_list (droppableId (source result)) b) as [[? ?]|].
Qed.

Lemma task_reorder_stale_target_is_noop_witness :
  onDragEnd boardAB (dropped "task" "A" 0 "gone" 0) = Returned boardAB [].
Proof.
  apply (task_reorder_stale_target_is_noop boardAB _ (mkLocation "gone" 0));
    [reflexivity | reflexivity |].
  right. apply (bool_decide_unpack _). by vm_compute.
Defined.

(** ** Task reorder *)

(** C1: a task-kind event whose two container ids name lists of the board
    and whose indices are in range takes the task at the source index out of
    the source list, sets its list reference to the destination list's id,
    and puts it in at the destination index of the destination list (the
    shortened source list when the two are the same); the other lists are
    not touched, and one update is sent per task of the destination list,
    carrying the task's new index and the destination list's id. *)
Theorem task_reorder_moves (b : Board) (result : DropResult) (dst : Location)
    (si di i j : nat) (A B : TaskList) :
  type result = "task" →
  destination result = Some dst →
  find_list (droppableId (source result)) b = Some (si, A) →
  find_list (droppableId dst) b = Some (di, B) →
  index (source result) = Z.of_nat i →
  i < length (tasks A) →
  index dst = Z.of_nat j →
  j ≤ length (if decide (si = di) then delete i (tasks A) else tasks B) →
  ∃ T,
    tasks A !! i = Some T ∧
    let T' := with_list_id T (tl_id B) in
    let srcTasks := delete i (tasks A) in
    let rest := if decide (si = di) then srcTasks else tasks B in
    let dstTasks := take j rest ++ T' :: drop j rest in
    let b' := <[di := with_tasks B dstTasks]>
                (<[si := with_tasks A srcTasks]> b) in
    onDragEnd b result = Returned b' (task_writes (tl_id B) dstTasks) ∧
    b' !! di = Some (with_tasks B dstTasks) ∧
    (si ≠ di → b' !! si = Some (with_tasks A srcTasks)) ∧
    (∀ p, p ≠ si → p ≠ di → b' !! p = b !! p) ∧
    dstTasks !! j = Some T' ∧
    delete j dstTasks = rest ∧
    length srcTasks = length (tasks A) - 1 ∧
    length dstTasks = S (length rest) ∧
    (task_id T' = task_id T ∧ content T' = content T ∧ list_id T' = tl_id B) ∧
    length (task_writes (tl_id B) dstTasks) = length dstTasks ∧
    ∀ p t, dstTasks !! p = Some t →
      task_writes (tl_id B) dstTasks !! p =
        Some (mkUpdate "tasks" [("position", VNum p); ("list_id", VStr (tl_id B))]
                       ("id", VStr (task_id t))).
Proof.
  intros Hty Hdst HA HB Hi Hlti Hj Hlej.
  destruct (lookup_lt_is_Some_2 (tasks A) i Hlti) as [T HT].
  exists T. split; [done|]. intros T' srcTasks rest dstTasks b'.
  apply find_list_Some in HA as HA'. destruct HA' as [HsA _].
  apply find_list_Some in HB as HB'. destruct HB' as [HdB _].
  apply lookup_lt_Some in HsA as Hsi. apply lookup_lt_Some in HdB as Hdi.
  repeat split.
  - unfold onDragEnd. rewrite Hdst, Hty.
    rewrite decide_False, decide_True by done.
    rewrite (reorder_tasks_eq _ _ _ _ _ _ _ HA HB), Hi, Hj.
    rewrite relative_start_nat by lia. rewrite HT. cbv zeta.
    fold srcTasks. fold rest. by rewrite relative_start_nat by done.
  - unfold b'. rewrite list_lookup_insert_eq; [done|].
    by rewrite length_insert.
  - intros Hne. unfold b'. rewrite list_lookup_insert_ne by done.
    by rewrite list_lookup_insert_eq.
  - intros p Hps Hpd. unfold b'. by rewrite !list_lookup_insert_ne.
  - by apply lookup_spliced_in.
  - by apply delete_spliced_in.
  - unfold srcTasks. rewrite length_delete by eauto. lia.
  - apply length_spliced_in.
  - unfold task_writes. by rewrite length_imap.
  - apply lookup_task_writes.
Qed.

Lemma task_reorder_moves_witness :
  onDragEnd boardAB (dropped "task" "A" 0 "B" 1)
  = Returned
      [ mkTaskList "A" "todo" [T2; T3];
        mkTaskList "B" "done" [U1; mkTask "t1" "first" "B"; U2] ]
      (task_writes "B" [U1; mkTask "t1" "first" "B"; U2])
  ∧ task_writes "B" [U1; mkTask "t1" "first" "B"; U2] =
      [ mkUpdate "tasks" [("position", VNum 0); ("list_id", VStr "B")] ("id", VStr "u1");
        mkUpdate "tasks" [("position", VNum 1); ("list_id", VStr "B")] ("id", VStr "t1");
        mkUpdate "tasks" [("position", VNum 2); ("list_id", VStr "B")] ("id", VStr "u2") ].
Proof.
  destruct (task_reorder_moves boardAB (dropped "task" "A" 0 "B" 1)
              (mkLocation "B" 1) 0 1 0 1
              (mkTaskList "A" "todo" [T1; T2; T3])
              (mkTaskList "B" "done" [U1; U2]))
    as (T & HT & Hrun & _);
    [reflexivity | reflexivity | reflexivity | reflexivity | reflexivity
    | simpl; lia | reflexivity | simpl; lia |].
  injection HT as <-. split; [exact Hrun | reflexivity].
Defined.

(** ** The element taken out by the splice is read without a guard *)

(** C10: both branches use the element the first splice removed without
    checking that there is one: the list branch reads the id of every entry
    of the array it was put back into, the task branch assigns its list
    reference. When the source index lies in [0, count) of the source
    container that element exists and the handler returns; when the source
    index is at or past the count nothing was removed, [undefined] is
    spliced in, and the handler ends in a TypeError with a hole left in the
    lists instead of leaving the board alone. *)
Theorem removed_element_is_dereferenced (b : Board) (result : DropResult)
    (dst : Location) :
  destination result = Some dst →
  (type result = "list" →
     ((0 ≤ index (source result) < Z.of_nat (length b))%Z →
        ∃ movedList b' ws,
          b !! Z.to_nat (index (source result)) = Some movedList ∧
          onDragEnd b result = Returned b' ws) ∧
     ((Z.of_nat (length b) ≤ index (source result))%Z →
        ∃ memory ws,
          onDragEnd b result = TypeError memory ws ∧ None ∈ memory)) ∧
  (type result = "task" →
     ∀ si di A B,
       find_list (droppableId (source result)) b = Some (si, A) →
       find_list (droppableId dst) b = Some (di, B) →
       ((0 ≤ index (source result) < Z.of_nat (length (tasks A)))%Z →
          ∃ movedTask b' ws,
            tasks A !! Z.to_nat (index (source result)) = Some movedTask ∧
            onDragEnd b result = Returned b' ws) ∧
       ((Z.of_nat (length (tasks A)) ≤ index (source result))%Z →
          ∃ memory held,
            onDragEnd b result = TypeError memory [] ∧
            memory !! di = Some (Some held) ∧ None ∈ raw_tasks held)).
Proof.
  intros Hdst. split.
  - intros Hty. unfold onDragEnd. rewrite Hdst, Hty, decide_True by done.
    rewrite reorder_lists_eq. split; intros Hrange.
    + rewrite relative_start_in_range by lia.
      destruct (lookup_lt_is_Some_2 b (Z.to_nat (index (source result))))
        as [l Hl]; [lia|].
      rewrite Hl. eauto.
    + rewrite relative_start_ge by done.
      rewrite (lookup_ge_None_2 b (length b)) by done.
      eexists _, _. split; [done|].
      apply elem_of_app. right. apply elem_of_cons. by left.
  - intros Hty si di A B HA HB. unfold onDragEnd. rewrite Hdst, Hty.
    rewrite decide_False, decide_True by done.
    rewrite (reorder_tasks_eq _ _ _ _ _ _ _ HA HB). split; intros Hrange.
    + rewrite relative_start_in_range by lia.
      destruct (lookup_lt_is_Some_2 (tasks A)
                  (Z.to_nat (index (source result)))) as [t Ht]; [lia|].
      rewrite Ht. eauto.
    + rewrite relative_start_ge by done.
      rewrite (lookup_ge_None_2 (tasks A) (length (tasks A))) by done.
      eexists _, _. split; [done|]. split.
      * apply list_lookup_insert_eq. unfold raw_board. rewrite length_fmap.
        apply find_list_Some in HB as [HB _]. by eapply lookup_lt_Some.
      * simpl. apply elem_of_app. right. apply elem_of_cons. by left.
Qed.

Lemma removed_element_is_dereferenced_witness :
  (∃ memory ws,
     onDragEnd [L0; L1] (dropped "list" "board" 5 "board" 1) = TypeError memory ws
     ∧ None ∈ memory)
  ∧ (∃ movedTask b' ws,
       tasks (mkTaskList "A" "todo" [T1; T2; T3]) !! Z.to_nat 2 = Some movedTask
       ∧ onDragEnd boardAB (dropped "task" "A" 2 "B" 0) = Returned b' ws).
Proof.
  split.
  - apply (removed_element_is_dereferenced [L0; L1]
             (dropped "list" "board" 5 "board" 1) (mkLocation "board" 1));
      [reflexivity | reflexivity | simpl; lia].
  - apply (removed_element_is_dereferenced boardAB
             (dropped "task" "A" 2 "B" 0) (mkLocation "B" 0) eq_refl)
      with (si := 0) (di := 1) (B := mkTaskList "B" "done" [U1; U2]);
      [reflexivity | reflexivity | reflexivity | simpl; lia].
Defined.

(** ** Creation *)

(** C9: with a non-empty answer, task creation sends one insert of one row
    whose fields are the id, the content and the owning list's id, with no
    position among them, whereas list creation sends an insert whose
    position is the number of lists currently on the board. *)
Theorem creation_rows (taskLists : Board) (owner text uuid : string) :
  text ≠ "" →
  addTask owner (Some text) uuid =
    [mkInsert "tasks"
       [[("id", VStr uuid); ("content", VStr text); ("list_id", VStr owner)]]] ∧
  (∀ ins row, ins ∈ addTask owner (Some text) uuid → row ∈ ins_rows ins →
     row.*1 = ["id"; "content"; "list_id"] ∧ "position" ∉ row.*1) ∧
  addTaskList taskLists (Some text) uuid =
    [mkInsert "task_lists"
       [[("id", VStr uuid); ("title", VStr text);
         ("position", VNum (length taskLists))]]].
Proof.
  intros Htext.
  assert (addTask owner (Some text) uuid =
    [mkInsert "tasks"
       [[("id", VStr uuid); ("content", VStr text); ("list_id", VStr owner)]]])
    as Hadd by (by destruct text).
  split; [done|]. split.
  - rewrite Hadd. intros ins row Hins Hrow.
    apply list_elem_of_singleton in Hins as ->. simpl in Hrow.
    apply list_elem_of_singleton in Hrow as ->. split; [done|].
    simpl. rewrite !elem_of_cons, elem_of_nil.
    by intros [|[|[|]]].
  - by destruct text.
Qed.

Lemma creation_rows_witness :
  addTask "A" (Some "write tests") "id-7" =
    [mkInsert "tasks"
       [[("id", VStr "id-7"); ("content", VStr "write tests");
         ("list_id", VStr "A")]]]
  ∧ addTaskList boardAB (Some "later") "id-8" =
    [mkInsert "task_lists"
       [[("id", VStr "id-8"); ("title", VStr "later"); ("position", VNum 2)]]].
Proof.
  split.
  - apply (creation_rows boardAB "A" "write tests" "id-7"). discriminate.
  - apply (creation_rows boardAB "A" "later" "id-8"). discriminate.
Defined.

(** ** Fetch and change notifications *)

(** C6: both bindings of the channel carry the same callback,
    [fetchTaskLists], with the wildcard event; a change of any kind on
    either table invokes that callback once, the callback sends the query
    for all lists with their tasks, and the state becomes the snapshot the
    query resolves to, whatever the state was (the empty board when the
    query resolves without error and without data). *)
Theorem change_refetches_and_replaces (kind : ChangeKind) (table : string) :
  table = "tasks" ∨ table = "task_lists" →
  bind_callback <$> subscription = [fetchTaskLists; fetchTaskLists] ∧
  notified subscription (mkChange kind "public" table) = [fetchTaskLists] ∧
  request fetchTaskLists =
    mkSelect "task_lists" "*, tasks(*)" ("position", "tasks", true) ∧
  (∀ (snapshot taskLists : Board),
     resume fetchTaskLists (mkResponse (Some snapshot) None) taskLists = snapshot) ∧
  (∀ (response : PostgrestResponse) (taskLists : Board),
     error response = None →
     resume fetchTaskLists response taskLists = default [] (data response)).
Proof.
  intros Htable. split; [done|]. split.
  { by destruct Htable as [-> | ->], kind. }
  split; [done|]. split; [done|].
  intros response taskLists Herr. simpl. by rewrite Herr.
Qed.

Lemma change_refetches_and_replaces_witness :
  notified subscription (mkChange DELETE "public" "task_lists") = [fetchTaskLists]
  ∧ resume fetchTaskLists (mkResponse (Some [L0; L1]) None) boardAB = [L0; L1].
Proof.
  destruct (change_refetches_and_replaces DELETE "task_lists")
    as (_ & Hn & _ & Hr & _); [by right|].
  split; [exact Hn | apply Hr].
Defined.

(** C7: when the fetch resolves with an error, the state is the one from
    before: it is not replaced by the response's data, by the empty board,
    or by anything else. *)
Theorem fetch_error_keeps_state (taskLists : Board) (response : PostgrestResponse) :
  error response ≠ None →
  resume fetchTaskLists response taskLists = taskLists.
Proof. intros H. simpl. by destruct (error response). Qed.

Lemma fetch_error_keeps_state_witness :
  resume fetchTaskLists (mkResponse None (Some "timeout")) boardAB = boardAB
  ∧ resume fetchTaskLists (mkResponse (Some []) (Some "timeout")) boardAB = boardAB.
Proof.
  split; apply fetch_error_keeps_state; discriminate.
Defined.

(** ** Rows *)

Lemma task_row_id o i t : task_row o i t !! "id" = Some (VStr (task_id t)).
Proof. reflexivity. Qed.

Lemma task_row_list_id o i t : task_row o i t !! "list_id" = Some (VStr o).
Proof. reflexivity. Qed.

Lemma task_row_position o i t : task_row o i t !! "position" = Some (VNum i).
Proof. reflexivity. Qed.

Lemma list_row_id i l : list_row i l !! "id" = Some (VStr (tl_id l)).
Proof. reflexivity. Qed.

Lemma list_row_position i l : list_row i l !! "position" = Some (VNum i).
Proof. reflexivity. Qed.

Lemma task_row_updated o i t d p :
  list_to_map [("position", VNum p); ("list_id", VStr d)] ∪ task_row o i t
  = task_row d p t.
Proof. reflexivity. Qed.

Lemma list_row_updated i l p :
  list_to_map [("position", VNum p)] ∪ list_row i l = list_row p l.
Proof. reflexivity. Qed.

Lemma updated_task_fields p d (r : Row) :
  in_list d (list_to_map [("position", VNum p); ("list_id", VStr d)] ∪ r) ∧
  (list_to_map [("position", VNum p); ("list_id", VStr d)] ∪ r) !! "position"
    = Some (VNum p).
Proof. split; by apply lookup_union_Some_l. Qed.

Lemma updated_list_position p (r : Row) :
  (list_to_map [("position", VNum p)] ∪ r) !! "position" = Some (VNum p).
Proof. by apply lookup_union_Some_l. Qed.

(** A task's row does not read the task's own list reference. *)
Lemma task_row_ext o i t t' :
  task_id t = task_id t' → content t = content t' →
  task_row o i t = task_row o i t'.
Proof. intros H1 H2. unfold task_row. by rewrite H1, H2. Qed.

#[local] Opaque task_row list_row.

(** ** Updates against a table *)

Lemma lookup_update_rows vals k (tbl : Table) k' :
  keyed tbl →
  update_rows vals ("id", VStr k) tbl !! k' =
    if decide (k' = k) then (λ r : Row, list_to_map vals ∪ r) <$> tbl !! k'
    else tbl !! k'.
Proof.
  intros Hkeyed. unfold update_rows. rewrite lookup_fmap.
  destruct (tbl !! k') as [r|] eqn:Hr; simpl; [|by case_decide].
  apply Hkeyed in Hr. rewrite Hr.
  repeat case_decide; simplify_eq; done.
Qed.

Lemma keyed_update_rows vals flt (tbl : Table) :
  keyed tbl → "id" ∉ vals.*1 → keyed (update_rows vals flt tbl).
Proof.
  intros Hkeyed Hid k r. unfold update_rows. rewrite lookup_fmap.
  destruct (tbl !! k) as [r0|] eqn:Hr0; simpl; [|done].
  intros [= <-]. apply Hkeyed in Hr0.
  case_decide; [|done].
  rewrite lookup_union_r; [done|]. by apply not_elem_of_list_to_map_1.
Qed.

Lemma apply_updates_cons u ws (tbl : Table) :
  apply_updates (u :: ws) tbl =
    apply_updates ws (update_rows (upd_values u) (upd_eq u) tbl).
Proof. reflexivity. Qed.

(** Updates that address distinct rows by id: each row receives the values
    of the update that names it, the other rows stay as they are. *)
Lemma apply_updates_by_id (ws : list Update) (keys : list string) (tbl : Table) :
  keyed tbl →
  Forall2 (λ u k, upd_eq u = ("id", VStr k) ∧ "id" ∉ (upd_values u).*1) ws keys →
  NoDup keys →
  (∀ p u k, ws !! p = Some u → keys !! p = Some k →
     apply_updates ws tbl !! k =
       (λ r : Row, list_to_map (upd_values u) ∪ r) <$> tbl !! k) ∧
  (∀ k, k ∉ keys → apply_updates ws tbl !! k = tbl !! k).
Proof.
  intros Hkeyed Hws. revert tbl Hkeyed.
  induction Hws as [|u k ws keys [Heq Hid] Hws IH]; intros tbl Hkeyed Hnd.
  { split; [by intros p u k ?|done]. }
  apply NoDup_cons in Hnd as [Hk Hnd].
  setoid_rewrite apply_updates_cons. rewrite Heq.
  destruct (IH (update_rows (upd_values u) ("id", VStr k) tbl)) as [IH1 IH2];
    [by apply keyed_update_rows | done |].
  split.
  - intros [|p] u' k' Hu' Hk'; simpl in *; simplify_eq.
    + rewrite IH2 by done. rewrite lookup_update_rows by done.
      by rewrite decide_True.
    + rewrite (IH1 p u' k') by done. rewrite lookup_update_rows by done.
      rewrite decide_False; [done|].
      intros ->. apply Hk. by eapply list_elem_of_lookup_2.
  - intros k' Hk'. apply not_elem_of_cons in Hk' as [Hne Hk'].
    rewrite IH2 by done. rewrite lookup_update_rows by done.
    by rewrite decide_False.
Qed.

Lemma persist_all_tasks (ws : list Update) (db : Remote) :
  Forall (λ u, upd_from u = "tasks") ws →
  persist_all ws db = mkRemote (task_lists_tbl db) (apply_updates ws (tasks_tbl db)).
Proof.
  intros Hws. revert db. induction Hws as [|u ws Hu Hws IH]; intros db.
  { by destruct db. }
  unfold persist_all, apply_updates in *. simpl. rewrite IH.
  unfold persist. rewrite Hu. by rewrite decide_False, decide_True.
Qed.

Lemma persist_all_lists (ws : list Update) (db : Remote) :
  Forall (λ u, upd_from u = "task_lists") ws →
  persist_all ws db = mkRemote (apply_updates ws (task_lists_tbl db)) (tasks_tbl db).
Proof.
  intros Hws. revert db. induction Hws as [|u ws Hu Hws IH]; intros db.
  { by destruct db. }
  unfold persist_all, apply_updates in *. simpl. rewrite IH.
  unfold persist. rewrite Hu. by rewrite decide_True.
Qed.

Lemma task_writes_shape d (ts : list Task) :
  Forall (λ u, upd_from u = "tasks") (task_writes d ts) ∧
  Forall2 (λ u k, upd_eq u = ("id", VStr k) ∧ "id" ∉ (upd_values u).*1)
          (task_writes d ts) (task_id <$> ts).
Proof.
  unfold task_writes. split.
  - apply Forall_forall. intros u Hu.
    apply elem_of_lookup_imap_1 in Hu as (p & t & -> & _). done.
  - apply Forall2_same_length_lookup. split.
    + by rewrite length_imap, length_fmap.
    + intros p u k Hu Hk. rewrite list_lookup_imap in Hu.
      rewrite list_lookup_fmap in Hk.
      destruct (ts !! p) as [t|]; simplify_eq/=. split; [done|].
      rewrite !elem_of_cons, elem_of_nil. by intros [|[|]].
Qed.

Lemma list_writes_shape (b : Board) :
  Forall (λ u, upd_from u = "task_lists") (list_writes b) ∧
  Forall2 (λ u k, upd_eq u = ("id", VStr k) ∧ "id" ∉ (upd_values u).*1)
          (list_writes b) (tl_id <$> b).
Proof.
  unfold list_writes. split.
  - apply Forall_forall. intros u Hu.
    apply elem_of_lookup_imap_1 in Hu as (p & t & -> & _). done.
  - apply Forall2_same_length_lookup. split.
    + by rewrite length_imap, length_fmap.
    + intros p u k Hu Hk. rewrite list_lookup_imap in Hu.
      rewrite list_lookup_fmap in Hk.
      destruct (b !! p) as [l|]; simplify_eq/=. split; [done|].
      rewrite !elem_of_cons, elem_of_nil. by intros [|].
Qed.

(** ** The store that holds a board *)

Lemma task_rows_keys l : (task_rows l).*1 = task_id <$> tasks l.
Proof.
  unfold task_rows. rewrite fmap_imap, <-imap_const. by apply imap_ext.
Qed.

Lemma all_task_rows_keys (b : Board) :
  (b ≫= task_rows).*1 = task_id <$> (b ≫= tasks).
Proof.
  induction b as [|l b IH]; csimpl; [done|].
  by rewrite !fmap_app, task_rows_keys, IH.
Qed.

Lemma list_rows_keys (b : Board) : (list_rows b).*1 = tl_id <$> b.
Proof.
  unfold list_rows. rewrite fmap_imap, <-imap_const. by apply imap_ext.
Qed.

Lemma persisted_task_lookup (b : Board) li l p t :
  distinct_ids b → b !! li = Some l → tasks l !! p = Some t →
  tasks_tbl (persisted b) !! task_id t = Some (task_row (tl_id l) p t).
Proof.
  intros [_ Hnd] Hl Ht. simpl. apply elem_of_list_to_map_1.
  - by rewrite all_task_rows_keys.
  - apply list_elem_of_bind. exists l. split.
    + unfold task_rows.
      apply (elem_of_lookup_imap_2
               (λ i t, (task_id t, task_row (tl_id l) i t)) _ _ _ Ht).
    + by eapply list_elem_of_lookup_2.
Qed.

Lemma persisted_task_inv (b : Board) k r :
  tasks_tbl (persisted b) !! k = Some r →
  ∃ li l p t, b !! li = Some l ∧ tasks l !! p = Some t ∧
              task_id t = k ∧ r = task_row (tl_id l) p t.
Proof.
  simpl. intros H. apply elem_of_list_to_map_2 in H.
  apply list_elem_of_bind in H as (l & Hrow & Hl).
  apply list_elem_of_lookup_1 in Hl as [li Hl].
  apply elem_of_lookup_imap_1 in Hrow as (p & t & Heq & Ht).
  simplify_eq. by exists li, l, p, t.
Qed.

Lemma persisted_list_lookup (b : Board) li l :
  distinct_ids b → b !! li = Some l →
  task_lists_tbl (persisted b) !! tl_id l = Some (list_row li l).
Proof.
  intros [Hnd _] Hl. simpl. apply elem_of_list_to_map_1.
  - by rewrite list_rows_keys.
  - apply (elem_of_lookup_imap_2 (λ i l, (tl_id l, list_row i l)) _ _ _ Hl).
Qed.

Lemma persisted_list_inv (b : Board) k r :
  task_lists_tbl (persisted b) !! k = Some r →
  ∃ li l, b !! li = Some l ∧ tl_id l = k ∧ r = list_row li l.
Proof.
  simpl. intros H. apply elem_of_list_to_map_2 in H.
  apply elem_of_lookup_imap_1 in H as (li & l & Heq & Hl).
  simplify_eq. by exists li, l.
Qed.

Lemma persisted_keyed (b : Board) :
  keyed (task_lists_tbl (persisted b)) ∧ keyed (tasks_tbl (persisted b)).
Proof.
  split; intros k r Hr.
  - apply persisted_list_inv in Hr as (li & l & _ & <- & ->).
    apply list_row_id.
  - apply persisted_task_inv in Hr as (li & l & p & t & _ & _ & <- & ->).
    apply task_row_id.
Qed.

Lemma list_id_unique (b : Board) li li' l l' :
  distinct_ids b → b !! li = Some l → b !! li' = Some l' →
  tl_id l = tl_id l' → li = li'.
Proof.
  intros [Hnd _] Hl Hl' Heq.
  apply (NoDup_lookup (tl_id <$> b) li li' (tl_id l) Hnd).
  - by rewrite list_lookup_fmap, Hl.
  - by rewrite list_lookup_fmap, Hl', Heq.
Qed.

Lemma task_id_unique (b : Board) li li' l l' p p' t t' :
  distinct_ids b →
  b !! li = Some l → tasks l !! p = Some t →
  b !! li' = Some l' → tasks l' !! p' = Some t' →
  task_id t = task_id t' → li = li' ∧ p = p'.
Proof.
  intros Hd Hl Ht Hl' Ht' Heq.
  pose proof (persisted_task_lookup b li l p t Hd Hl Ht) as H.
  pose proof (persisted_task_lookup b li' l' p' t' Hd Hl' Ht') as H'.
  rewrite Heq, H' in H. apply (inj Some) in H.
  pose proof (f_equal (.!! "list_id") H) as Hlist.
  pose proof (f_equal (.!! "position") H) as Hpos.
  rewrite !task_row_list_id in Hlist. rewrite !task_row_position in Hpos.
  simplify_eq. split; [|done]. symmetry. by eapply list_id_unique.
Qed.

(** ** Dense positions *)

(** An enumeration of the selected rows in which the row of the [p]-th key
    carries position [p] shows that the positions are dense. *)
Lemma positions_dense_enum (tbl : Table) (P : Row → Prop) (keys : list string) :
  NoDup keys →
  (∀ p k, keys !! p = Some k →
     ∃ r, tbl !! k = Some r ∧ P r ∧ r !! "position" = Some (VNum p)) →
  (∀ k r, tbl !! k = Some r → P r → k ∈ keys) →
  positions_dense tbl P (length keys).
Proof.
  intros Hnd Hrows Honly. split; [|split].
  - intros k r Hr HP. destruct (list_elem_of_lookup_1 _ _ (Honly k r Hr HP)) as [p Hp].
    destruct (Hrows p k Hp) as (r' & Hr' & _ & Hpos). simplify_eq.
    exists p. split; [done|]. by eapply lookup_lt_Some.
  - intros p Hp. destruct (lookup_lt_is_Some_2 keys p Hp) as [k Hk].
    destruct (Hrows p k Hk) as (r & ? & ? & ?). by exists k, r.
  - intros k1 k2 r1 r2 Hr1 Hr2 HP1 HP2 Hpos.
    destruct (list_elem_of_lookup_1 _ _ (Honly k1 r1 Hr1 HP1)) as [p1 Hp1].
    destruct (list_elem_of_lookup_1 _ _ (Honly k2 r2 Hr2 HP2)) as [p2 Hp2].
    destruct (Hrows p1 k1 Hp1) as (r1' & ? & _ & Hpos1).
    destruct (Hrows p2 k2 Hp2) as (r2' & ? & _ & Hpos2).
    simplify_eq. rewrite Hpos1, Hpos2 in Hpos. by simplify_eq.
Qed.

Lemma task_ids_NoDup (b : Board) li l :
  distinct_ids b → b !! li = Some l → NoDup (task_id <$> tasks l).
Proof.
  intros Hd Hl. apply NoDup_alt. intros p p' k Hp Hp'.
  rewrite list_lookup_fmap in Hp, Hp'.
  destruct (tasks l !! p) as [t|] eqn:Ht; [|done].
  destruct (tasks l !! p') as [t'|] eqn:Ht'; [|done].
  simplify_eq/=. by eapply (task_id_unique b li li l l p p' t t').
Qed.

Lemma persisted_dense_tasks (b : Board) li l :
  distinct_ids b → b !! li = Some l →
  dense_tasks (persisted b) (tl_id l) (length (tasks l)).
Proof.
  intros Hd Hl. unfold dense_tasks.
  rewrite <-(length_fmap task_id). apply positions_dense_enum.
  - by eapply task_ids_NoDup.
  - intros p k Hk. rewrite list_lookup_fmap in Hk.
    destruct (tasks l !! p) as [t|] eqn:Ht; simplify_eq/=.
    exists (task_row (tl_id l) p t). split; [|done].
    by eapply persisted_task_lookup.
  - intros k r Hr Hin.
    apply persisted_task_inv in Hr as (li' & l' & p & t & Hl' & Ht & <- & ->).
    unfold in_list in Hin. rewrite task_row_list_id in Hin. simplify_eq.
    assert (li' = li) as -> by by eapply list_id_unique.
    simplify_eq. apply list_elem_of_fmap_2. by eapply list_elem_of_lookup_2.
Qed.

Lemma persisted_dense_lists (b : Board) :
  distinct_ids b → dense_lists (persisted b) (length b).
Proof.
  intros Hd. unfold dense_lists.
  rewrite <-(length_fmap tl_id). apply positions_dense_enum.
  - apply Hd.
  - intros p k Hk. rewrite list_lookup_fmap in Hk.
    destruct (b !! p) as [l|] eqn:Hl; simplify_eq/=.
    exists (list_row p l). split; [|done]. by apply persisted_list_lookup.
  - intros k r Hr _. apply persisted_list_inv in Hr as (li & l & Hl & <- & _).
    apply list_elem_of_fmap_2. by eapply list_elem_of_lookup_2.
Qed.

(** ** A task move against the store that holds the board *)

Lemma elem_of_delete {A} (l : list A) i x :
  x ∈ delete i l ↔ ∃ p, p ≠ i ∧ l !! p = Some x.
Proof.
  rewrite list_elem_of_lookup. split.
  - intros [q Hq]. destruct (decide (q < i)).
    + rewrite list_lookup_delete_lt in Hq by done. exists q. split; [lia|done].
    + rewrite list_lookup_delete_ge in Hq by lia. exists (S q). split; [lia|done].
  - intros (p & Hp & Hx). destruct (decide (p < i)).
    + exists p. by rewrite list_lookup_delete_lt.
    + exists (p - 1). rewrite list_lookup_delete_ge by lia.
      by replace (S (p - 1)) with p by lia.
Qed.

Lemma spliced_in_Permutation {A} (a : list A) k x :
  take k a ++ x :: drop k a ≡ₚ x :: a.
Proof. by rewrite <-Permutation_middle, take_drop. Qed.

(** Density only looks at the selected rows. *)
Lemma positions_dense_ext (tbl tbl' : Table) (P : Row → Prop) n :
  (∀ k r, P r → tbl' !! k = Some r ↔ tbl !! k = Some r) →
  positions_dense tbl P n → positions_dense tbl' P n.
Proof.
  intros Hext (Hbound & Hall & Hinj). split; [|split].
  - intros k r Hr HP. apply (Hbound k r); [by apply Hext|done].
  - intros p Hp. destruct (Hall p Hp) as (k & r & Hr & HP & Hpos).
    exists k, r. split; [by apply Hext|done].
  - intros k1 k2 r1 r2 Hr1 Hr2 HP1 HP2.
    apply (Hinj k1 k2 r1 r2); try done; by apply Hext.
Qed.

Section TaskMove.
Variables (b : Board) (db : Remote) (si di i j : nat) (A B : TaskList) (T : Task).
Hypothesis Hdistinct : distinct_ids b.
Hypothesis Hholds : holds db b.
Hypothesis HA : b !! si = Some A.
Hypothesis HB : b !! di = Some B.
Hypothesis HT : tasks A !! i = Some T.

#[local] Abbreviation srcTasks := (delete i (tasks A)).
#[local] Abbreviation rest := (if decide (si = di) then srcTasks else tasks B).
#[local] Abbreviation dstTasks :=
  (take j rest ++ with_list_id T (tl_id B) :: drop j rest).
#[local] Abbreviation tbl' :=
  (apply_updates (task_writes (tl_id B) dstTasks) (tasks_tbl db)).

(** Where the tasks of the new destination sequence come from. *)
Lemma dst_origin t :
  t ∈ dstTasks →
  ∃ li l p t0, (li = si ∨ li = di) ∧ b !! li = Some l ∧ tasks l !! p = Some t0 ∧
               task_id t0 = task_id t ∧ content t0 = content t ∧
               (t0 = T ∨ (t0 = t ∧ t ∈ rest)).
Proof.
  rewrite spliced_in_Permutation, elem_of_cons.
  intros [->|Hrest].
  - exists si, A, i, T. eauto 10.
  - case_decide.
    + apply elem_of_delete in Hrest as Hp. destruct Hp as (p & _ & Hp).
      exists si, A, p, t. eauto 10.
    + apply list_elem_of_lookup_1 in Hrest as Hp. destruct Hp as [p Hp].
      exists di, B, p, t. eauto 10.
Qed.

Lemma dst_ids_NoDup : NoDup (task_id <$> dstTasks).
Proof.
  rewrite spliced_in_Permutation, fmap_cons.
  apply NoDup_cons. split.
  - intros Hin. apply list_elem_of_fmap in Hin as (t & Heq & Ht).
    simpl in Heq. case_decide.
    + apply elem_of_delete in Ht as (p & Hp & Ht).
      by destruct (task_id_unique b si si A A i p T t).
    + apply list_elem_of_lookup_1 in Ht as [p Ht].
      by destruct (task_id_unique b si di A B i p T t).
  - case_decide.
    + pose proof (task_ids_NoDup b si A Hdistinct HA) as Hnd.
      rewrite (delete_Permutation _ _ _ HT), fmap_cons in Hnd.
      by apply NoDup_cons in Hnd as [_ ?].
    + by eapply task_ids_NoDup.
Qed.

(** The row of a task is filed under the list that holds the task. *)
Lemma row_list li l p t r L :
  b !! li = Some l → tasks l !! p = Some t →
  tasks_tbl db !! task_id t = Some r → in_list L r → L = tl_id l.
Proof.
  intros Hl Ht Hr HL.
  destruct (holds_task _ _ Hholds li l p t Hl Ht) as (r' & Hr' & Hin).
  rewrite Hr in Hr'. apply (inj Some) in Hr' as <-.
  unfold in_list in *. congruence.
Qed.

(** The row of every task of the new destination sequence is assigned the
    task's new index and the destination list's id. *)
Lemma dst_row q t :
  dstTasks !! q = Some t →
  ∃ r0, tasks_tbl db !! task_id t = Some r0 ∧
    tbl' !! task_id t =
      Some (list_to_map [("position", VNum q); ("list_id", VStr (tl_id B))] ∪ r0).
Proof.
  intros Hq. destruct (task_writes_shape (tl_id B) dstTasks) as [_ Hshape].
  destruct (apply_updates_by_id _ _ (tasks_tbl db)
              (holds_tasks_keyed _ _ Hholds) Hshape dst_ids_NoDup) as [Hrow _].
  destruct (dst_origin t) as (li & l & p & t0 & _ & Hl & Ht0 & Hid & _);
    [by eapply list_elem_of_lookup_2|].
  destruct (holds_task _ _ Hholds li l p t0 Hl Ht0) as (r0 & Hr0 & _).
  rewrite Hid in Hr0. exists r0. split; [done|].
  erewrite Hrow;
    [|by apply lookup_task_writes | by rewrite list_lookup_fmap, Hq].
  by rewrite Hr0.
Qed.

(** The other rows stay as they are. *)
Lemma other_row k :
  k ∉ task_id <$> dstTasks → tbl' !! k = tasks_tbl db !! k.
Proof.
  intros Hk. destruct (task_writes_shape (tl_id B) dstTasks) as [_ Hshape].
  destruct (apply_updates_by_id _ _ (tasks_tbl db)
              (holds_tasks_keyed _ _ Hholds) Hshape dst_ids_NoDup) as [_ Hsame].
  by apply Hsame.
Qed.

Lemma old_dst_covered t : t ∈ tasks B → task_id t ∈ task_id <$> dstTasks.
Proof.
  intros Ht. rewrite spliced_in_Permutation, fmap_cons.
  apply elem_of_cons. case_decide; [|right; by apply list_elem_of_fmap_2].
  simplify_eq. apply list_elem_of_lookup_1 in Ht as [p Hp].
  destruct (decide (p = i)) as [->|]; [left; by simplify_eq|right].
  apply list_elem_of_fmap_2, elem_of_delete. eauto.
Qed.

Lemma dense_destination lists :
  dense_tasks (mkRemote lists tbl') (tl_id B) (length dstTasks).
Proof.
  unfold dense_tasks. cbn [tasks_tbl].
  rewrite <-(length_fmap task_id). apply positions_dense_enum.
  - apply dst_ids_NoDup.
  - intros q k Hk. rewrite list_lookup_fmap in Hk.
    destruct (dstTasks !! q) as [t|] eqn:Ht; [|done].
    simpl in Hk. injection Hk as <-.
    destruct (dst_row q t Ht) as (r0 & _ & Hr').
    eexists. split; [exact Hr'|]. apply updated_task_fields.
  - intros k r Hr Hin. destruct (decide (k ∈ task_id <$> dstTasks)); [done|].
    rewrite other_row in Hr by done.
    destruct (holds_task_only _ _ Hholds k r Hr) as (li & l & p & t & Hl & Ht & <-).
    pose proof (row_list li l p t r (tl_id B) Hl Ht Hr Hin) as Heq.
    assert (li = di) as -> by (eapply list_id_unique; eauto).
    simplify_eq. apply old_dst_covered. by eapply list_elem_of_lookup_2.
Qed.

(** A list that is neither end of the move keeps the rows it had. *)
Lemma dense_untouched lists li l n :
  li ≠ si → li ≠ di → b !! li = Some l →
  dense_tasks db (tl_id l) n →
  dense_tasks (mkRemote lists tbl') (tl_id l) n.
Proof.
  intros Hsi Hdi Hl. unfold dense_tasks. cbn [tasks_tbl].
  apply positions_dense_ext. intros k r Hin.
  destruct (decide (k ∈ task_id <$> dstTasks)) as [Hk|Hk];
    [|by rewrite other_row].
  apply list_elem_of_fmap in Hk as (t & -> & Ht).
  destruct (dst_origin t Ht) as (li' & l' & p' & t0 & Hli & Hl' & Ht0 & Hid & _).
  apply list_elem_of_lookup_1 in Ht as [q Hq].
  destruct (dst_row q t Hq) as (r0 & Hr0 & Hr'). split; intros Hr.
  - rewrite Hr' in Hr. apply (inj Some) in Hr as <-.
    destruct (updated_task_fields q (tl_id B) r0) as [HinB _].
    unfold in_list in *. destruct Hdi. eapply list_id_unique; eauto; congruence.
  - rewrite <-Hid in Hr.
    pose proof (row_list li' l' p' t0 r (tl_id l) Hl' Ht0 Hr Hin) as Heq.
    assert (li = li') as -> by (eapply list_id_unique; eauto).
    by destruct Hli.
Qed.

(** After a move to another list, the rows of the tasks left in the source
    list are the ones from before the move. *)
Lemma source_rows_kept p t :
  si ≠ di → tasks A !! p = Some t → p ≠ i →
  tbl' !! task_id t = tasks_tbl db !! task_id t.
Proof.
  intros Hne Ht Hp. apply other_row.
  intros Hin. apply list_elem_of_fmap in Hin as (t' & Heq & Ht').
  destruct (dst_origin t' Ht') as (li' & l' & p' & t0 & _ & Hl' & Ht0 & Hid & _ & Hor).
  destruct (task_id_unique b si li' A l' p p' t t0) as [<- <-]; try done;
    [congruence|].
  simplify_eq. destruct Hor as [->|[-> Hrest]].
  - destruct (task_id_unique b si si A A p i T T) as [_ ?]; done.
  - rewrite decide_False in Hrest by done.
    apply list_elem_of_lookup_1 in Hrest as [q Hq].
    by destruct (task_id_unique b si di A B p q t' t').
Qed.
End TaskMove.

(** ** A list move against a store that holds the board *)

Lemma distinct_ids_Permutation (b b' : Board) :
  b' ≡ₚ b → distinct_ids b → distinct_ids b'.
Proof. intros Hp [H1 H2]. split; by rewrite Hp. Qed.

Lemma dense_lists_rewritten (b b' : Board) (db : Remote) (tbl : Table) :
  distinct_ids b → holds db b → b' ≡ₚ b →
  dense_lists
    (mkRemote (apply_updates (list_writes b') (task_lists_tbl db)) tbl)
    (length b').
Proof.
  intros Hd Hholds Hp.
  pose proof (distinct_ids_Permutation b b' Hp Hd) as [Hnd _].
  destruct (list_writes_shape b') as [_ Hshape].
  destruct (apply_updates_by_id _ _ (task_lists_tbl db)
              (holds_lists_keyed _ _ Hholds) Hshape Hnd) as [Hrow Hsame].
  unfold dense_lists. cbn [task_lists_tbl].
  rewrite <-(length_fmap tl_id). apply positions_dense_enum; [done|..].
  - intros p k Hk. rewrite list_lookup_fmap in Hk.
    destruct (b' !! p) as [l|] eqn:Hl; [|done].
    simpl in Hk. injection Hk as <-.
    assert (l ∈ b) as Hin by (rewrite <-Hp; by eapply list_elem_of_lookup_2).
    apply list_elem_of_lookup_1 in Hin as [q Hq].
    destruct (holds_list _ _ Hholds q l Hq) as [r0 Hr0].
    eexists. split; [|split; [done|apply (updated_list_position p r0)]].
    erewrite Hrow;
      [|by apply lookup_list_writes | by rewrite list_lookup_fmap, Hl].
    by rewrite Hr0.
  - intros k r Hr _. destruct (decide (k ∈ tl_id <$> b')); [done|].
    rewrite Hsame in Hr by done. rewrite Hp.
    by eapply holds_list_only.
Qed.

(** The store that holds exactly the board holds it, with dense positions. *)
Lemma persisted_holds (b : Board) : distinct_ids b → holds (persisted b) b.
Proof.
  intros Hd. split.
  - apply persisted_keyed.
  - apply persisted_keyed.
  - intros li l Hl. rewrite (persisted_list_lookup b li l) by done. eauto.
  - intros k r Hr. apply persisted_list_inv in Hr as (li & l & Hl & <- & _).
    apply list_elem_of_fmap_2. by eapply list_elem_of_lookup_2.
  - intros li l p t Hl Ht. exists (task_row (tl_id l) p t).
    split; [by eapply persisted_task_lookup|apply task_row_list_id].
  - intros k r Hr.
    apply persisted_task_inv in Hr as (li & l & p & t & ? & ? & ? & _). eauto 10.
Qed.

Lemma persisted_dense (b : Board) : distinct_ids b → dense (persisted b) b.
Proof.
  intros Hd. split; [by apply persisted_dense_lists|].
  intros l Hl. apply list_elem_of_lookup_1 in Hl as [li Hl].
  by eapply persisted_dense_tasks.
Qed.

(** After the writes of a list move, the row of the list at index [p] of
    the new sequence carries position [p]. *)
Lemma list_positions_rewritten (b b' : Board) (db : Remote) :
  distinct_ids b → holds db b → b' ≡ₚ b →
  ∀ p l, b' !! p = Some l →
    ∃ r, task_lists_tbl (persist_all (list_writes b') db) !! tl_id l = Some r ∧
         r !! "position" = Some (VNum p).
Proof.
  intros Hd Hholds Hp p l Hl.
  pose proof (distinct_ids_Permutation b b' Hp Hd) as [Hnd _].
  destruct (list_writes_shape b') as [Hfrom Hshape].
  destruct (apply_updates_by_id _ _ (task_lists_tbl db)
              (holds_lists_keyed _ _ Hholds) Hshape Hnd) as [Hrow _].
  rewrite persist_all_lists by done. cbn [task_lists_tbl].
  assert (l ∈ b) as Hin by (rewrite <-Hp; by eapply list_elem_of_lookup_2).
  apply list_elem_of_lookup_1 in Hin as [q Hq].
  destruct (holds_list _ _ Hholds q l Hq) as [r0 Hr0].
  eexists. split; [|apply (updated_list_position p r0)].
  erewrite Hrow;
    [|by apply lookup_list_writes | by rewrite list_lookup_fmap, Hl].
  by rewrite Hr0.
Qed.

(** ** List reorder *)

(** C3: a list-kind event with both indices in [0, listCount) takes the list
    at the source index out and puts it in at the destination index (splice
    out, then splice in); the loop then sends, for every index [p] of the
    new sequence, the update that sets the position of the list now at [p]
    to [p], so every list whose position changed is covered; on a store
    that holds the board, the row of every list then carries the list's new
    index as its position. *)
Theorem list_reorder_splices (b : Board) (result : DropResult)
    (dst : Location) (i j : nat) :
  type result = "list" →
  destination result = Some dst →
  index (source result) = Z.of_nat i →
  index dst = Z.of_nat j →
  i < length b →
  j < length b →
  ∃ movedList,
    b !! i = Some movedList ∧
    let rest := delete i b in
    let b' := take j rest ++ movedList :: drop j rest in
    onDragEnd b result = Returned b' (list_writes b') ∧
    b' !! j = Some movedList ∧
    delete j b' = rest ∧
    length b' = length b ∧
    length (list_writes b') = length b' ∧
    (∀ p l, b' !! p = Some l →
       list_writes b' !! p =
         Some (mkUpdate "task_lists" [("position", VNum p)] ("id", VStr (tl_id l)))) ∧
    (∀ db, distinct_ids b → holds db b →
       ∀ p l, b' !! p = Some l →
         ∃ r, task_lists_tbl (persist_all (list_writes b') db) !! tl_id l = Some r ∧
              r !! "position" = Some (VNum p)).
Proof.
  intros Hty Hdst Hi Hj Hlti Hltj.
  destruct (lookup_lt_is_Some_2 b i Hlti) as [movedList Hmoved].
  exists movedList. split; [done|]. intros rest b'.
  assert (length rest = length b - 1) as Hrest.
  { unfold rest. rewrite length_delete by eauto. lia. }
  assert (j ≤ length rest) as Hjr by lia.
  split; [|split; [|split; [|split; [|split; [|split]]]]].
  - unfold onDragEnd. rewrite Hdst, Hty, decide_True by done.
    rewrite reorder_lists_eq, Hi, Hj.
    rewrite relative_start_nat by lia. rewrite Hmoved. fold rest.
    by rewrite relative_start_nat by lia.
  - by apply lookup_spliced_in.
  - by apply delete_spliced_in.
  - unfold b'. rewrite length_spliced_in. lia.
  - unfold list_writes. by rewrite length_imap.
  - apply lookup_list_writes.
  - intros db Hd Hholds. apply (list_positions_rewritten b); try done.
    unfold b', rest. rewrite spliced_in_Permutation.
    symmetry. by apply delete_Permutation.
Qed.

Lemma list_reorder_splices_witness :
  onDragEnd [L0; L1; L2] (dropped "list" "board" 0 "board" 2)
  = Returned [L1; L2; L0] (list_writes [L1; L2; L0])
  ∧ list_writes [L1; L2; L0] =
      [ mkUpdate "task_lists" [("position", VNum 0)] ("id", VStr "L1");
        mkUpdate "task_lists" [("position", VNum 1)] ("id", VStr "L2");
        mkUpdate "task_lists" [("position", VNum 2)] ("id", VStr "L0") ].
Proof.
  destruct (list_reorder_splices [L0; L1; L2]
              (dropped "list" "board" 0 "board" 2) (mkLocation "board" 2) 0 2)
    as (movedList & Hmoved & Hrun & _);
    [reflexivity | reflexivity | reflexivity | reflexivity
    | simpl; lia | simpl; lia |].
  injection Hmoved as <-. split; [exact Hrun | reflexivity].
Defined.

(** ** Writes that repeat what the store holds *)

Lemma update_rows_same vals k (tbl : Table) r :
  keyed tbl → tbl !! k = Some r → list_to_map vals ∪ r = r →
  update_rows vals ("id", VStr k) tbl = tbl.
Proof.
  intros Hkeyed Hr Hsame. apply map_eq. intros k'.
  rewrite lookup_update_rows by done. case_decide; [|done].
  simplify_eq. rewrite Hr. simpl. by rewrite Hsame.
Qed.

Lemma persist_all_same (ws : list Update) (db : Remote) :
  (∀ u, u ∈ ws → persist db u = db) → persist_all ws db = db.
Proof.
  unfold persist_all. induction ws as [|u ws IH]; intros Hws; [done|].
  simpl. rewrite Hws by (apply elem_of_cons; by left).
  apply IH. intros u' Hu'. apply Hws. apply elem_of_cons. by right.
Qed.

Lemma list_writes_repeat (b : Board) u :
  distinct_ids b → u ∈ list_writes b → persist (persisted b) u = persisted b.
Proof.
  intros Hd Hu. apply elem_of_lookup_imap_1 in Hu as (p & l & -> & Hl).
  unfold persist. cbn [upd_from upd_values upd_eq].
  rewrite decide_True by done.
  rewrite (update_rows_same _ _ _ (list_row p l)).
  - done.
  - apply persisted_keyed.
  - by apply persisted_list_lookup.
  - apply list_row_updated.
Qed.

Lemma task_writes_repeat (b : Board) li l u :
  distinct_ids b → b !! li = Some l →
  u ∈ task_writes (tl_id l) (tasks l) → persist (persisted b) u = persisted b.
Proof.
  intros Hd Hl Hu. apply elem_of_lookup_imap_1 in Hu as (p & t & -> & Ht).
  unfold persist. cbn [upd_from upd_values upd_eq].
  rewrite decide_False, decide_True by done.
  rewrite (update_rows_same _ _ _ (task_row (tl_id l) p t)).
  - done.
  - apply persisted_keyed.
  - by eapply persisted_task_lookup.
  - apply task_row_updated.
Qed.

(** ** Reordering to the position already held *)

Lemma owned_lookup (b : Board) li l p t :
  owned b → b !! li = Some l → tasks l !! p = Some t → list_id t = tl_id l.
Proof.
  intros Ho Hl Ht. unfold owned in Ho. rewrite Forall_lookup in Ho.
  specialize (Ho li l Hl). rewrite Forall_lookup in Ho. by apply (Ho p t).
Qed.

(** X2: a run of the drag handler that returns keeps every task referring
    to the list that holds it: a moved task is given the destination list's
    id, and no other task is touched. *)
Lemma onDragEnd_owned (b : Board) (result : DropResult) b' ws :
  owned b → onDragEnd b result = Returned b' ws → owned b'.
Proof.
  intros Ho Hrun. unfold onDragEnd in Hrun.
  destruct (destination result) as [dst|]; [|by simplify_eq].
  destruct (decide (type result = "list")).
  { rewrite reorder_lists_eq in Hrun.
    destruct (b !! relative_start (length b) (index (source result)))
      as [l|] eqn:Hl; [|done].
    injection Hrun as <- <-. unfold owned.
    rewrite spliced_in_Permutation, <-(delete_Permutation _ _ _ Hl). done. }
  destruct (decide (type result = "task")); [|by simplify_eq].
  destruct (find_list (droppableId (source result)) b) as [[si A]|] eqn:HA;
    [|unfold reorder_tasks in Hrun; rewrite HA in Hrun; by simplify_eq].
  destruct (find_list (droppableId dst) b) as [[di B]|] eqn:HB;
    [|unfold reorder_tasks in Hrun; rewrite HA, HB in Hrun; by simplify_eq].
  rewrite (reorder_tasks_eq _ _ _ _ _ _ _ HA HB) in Hrun.
  apply find_list_Some in HA as [HsA _]. apply find_list_Some in HB as [HdB _].
  destruct (tasks A !! relative_start (length (tasks A)) (index (source result)))
    as [T|] eqn:HT; [|done].
  cbv zeta in Hrun. injection Hrun as <- <-.
  pose proof Ho as HoA. pose proof Ho as HoB. unfold owned in HoA, HoB.
  rewrite Forall_lookup in HoA, HoB.
  specialize (HoA si A HsA). specialize (HoB di B HdB).
  assert (Forall (λ t, list_id t = tl_id A)
            (delete (relative_start (length (tasks A)) (index (source result)))
               (tasks A))) as Hsrc by by apply Forall_delete.
  apply Forall_insert; [by apply Forall_insert|].
  cbn [tl_id tasks with_tasks]. rewrite spliced_in_Permutation.
  apply Forall_cons. split; [done|].
  case_decide; [by simplify_eq|done].
Qed.

(** C5: on a board whose tasks refer to the list that holds them and whose
    store holds exactly the board (positions dense and in the in-memory
    order), dropping a list or a task at the position it already has, in the
    container it already is in, returns the board unchanged, and every write
    sent repeats what the store holds: applying it changes nothing. *)
Theorem reorder_to_own_position (b : Board) (result : DropResult)
    (dst : Location) (i : nat) :
  distinct_ids b →
  owned b →
  destination result = Some dst →
  droppableId dst = droppableId (source result) →
  index dst = index (source result) →
  index (source result) = Z.of_nat i →
  (type result = "list" → i < length b →
     onDragEnd b result = Returned b (list_writes b) ∧
     (∀ u, u ∈ list_writes b → persist (persisted b) u = persisted b) ∧
     persist_all (list_writes b) (persisted b) = persisted b) ∧
  (type result = "task" →
     ∀ si A, find_list (droppableId (source result)) b = Some (si, A) →
             i < length (tasks A) →
     let ws := task_writes (tl_id A) (tasks A) in
     onDragEnd b result = Returned b ws ∧
     (∀ u, u ∈ ws → persist (persisted b) u = persisted b) ∧
     persist_all ws (persisted b) = persisted b).
Proof.
  intros Hd Ho Hdst Hid Hidx Hi. split.
  - intros Hty Hlt.
    destruct (lookup_lt_is_Some_2 b i Hlt) as [l Hl].
    assert (length (delete i b) = length b - 1) as Hlen
      by (rewrite length_delete by eauto; lia).
    split; [|split].
    + unfold onDragEnd. rewrite Hdst, Hty, decide_True by done.
      rewrite reorder_lists_eq, Hidx, Hi.
      rewrite relative_start_nat by lia. rewrite Hl.
      rewrite relative_start_nat by lia.
      by rewrite (splice_back b i l Hl).
    + intros u. by apply list_writes_repeat.
    + apply persist_all_same. intros u. by apply list_writes_repeat.
  - intros Hty si A HA Hlt ws.
    apply find_list_Some in HA as HA'. destruct HA' as [HsA _].
    destruct (lookup_lt_is_Some_2 (tasks A) i Hlt) as [T HT].
    assert (length (delete i (tasks A)) = length (tasks A) - 1) as Hlen
      by (rewrite length_delete by eauto; lia).
    split; [|split].
    + unfold onDragEnd. rewrite Hdst, Hty.
      rewrite decide_False, decide_True by done.
      assert (find_list (droppableId dst) b = Some (si, A)) as HB
        by by rewrite Hid.
      rewrite (reorder_tasks_eq _ _ _ _ _ _ _ HA HB), Hidx, Hi.
      rewrite relative_start_nat by lia. rewrite HT. cbv zeta.
      rewrite decide_True by done.
      rewrite relative_start_nat by lia.
      assert (with_list_id T (tl_id A) = T) as ->.
      { rewrite <-(owned_lookup b si A i T Ho HsA HT). by destruct T. }
      rewrite (splice_back (tasks A) i T HT).
      rewrite list_insert_insert_eq.
      assert (with_tasks A (tasks A) = A) as -> by by destruct A.
      by rewrite list_insert_id.
    + intros u. by apply (task_writes_repeat b si A).
    + apply persist_all_same. intros u. by apply (task_writes_repeat b si A).
Qed.

Lemma boardAB_distinct : distinct_ids boardAB.
Proof. split; apply (bool_decide_unpack _); by vm_compute. Defined.

Lemma boardAB_owned : owned boardAB.
Proof. apply (bool_decide_unpack _). by vm_compute. Defined.

Lemma reorder_to_own_position_witness :
  (onDragEnd boardAB (dropped "task" "A" 1 "A" 1)
     = Returned boardAB (task_writes "A" [T1; T2; T3])
   ∧ persist_all (task_writes "A" [T1; T2; T3]) (persisted boardAB)
     = persisted boardAB)
  ∧ (onDragEnd boardAB (dropped "list" "board" 1 "board" 1)
       = Returned boardAB (list_writes boardAB)
     ∧ persist_all (list_writes boardAB) (persisted boardAB)
       = persisted boardAB).
Proof.
  split.
  - destruct (reorder_to_own_position boardAB (dropped "task" "A" 1 "A" 1)
                (mkLocation "A" 1) 1 boardAB_distinct boardAB_owned
                eq_refl eq_refl eq_refl eq_refl) as [_ Htask].
    destruct (Htask eq_refl 0 (mkTaskList "A" "todo" [T1; T2; T3]) eq_refl)
      as (Hrun & _ & Hstore); [simpl; lia|].
    split; [exact Hrun | exact Hstore].
  - destruct (reorder_to_own_position boardAB (dropped "list" "board" 1 "board" 1)
                (mkLocation "board" 1) 1 boardAB_distinct boardAB_owned
                eq_refl eq_refl eq_refl eq_refl) as [Hlist _].
    destruct (Hlist eq_refl) as (Hrun & _ & Hstore); [simpl; lia|].
    split; [exact Hrun | exact Hstore].
Defined.

(** ** Positions in the store after a reorder *)

(** C2, amended: on a store that holds the board with dense positions,
    after any run of the drag handler that returns, the list positions are
    exactly [0 .. m-1], and the task positions of every list are exactly
    [0 .. n-1] except for the source list of a move to another list; the
    rows of the tasks left in that source list are not rewritten and keep
    the positions they had before the move. *)
Theorem reorder_positions_dense_except_source (b : Board) (db : Remote)
    (result : DropResult) (b' : Board) (ws : list Update) :
  distinct_ids b →
  holds db b →
  dense db b →
  onDragEnd b result = Returned b' ws →
  let db' := persist_all ws db in
  dense_lists db' (length b') ∧
  (∀ l, l ∈ b' → ¬ cross_list_source result (tl_id l) →
     dense_tasks db' (tl_id l) (length (tasks l))) ∧
  (∀ l p t, l ∈ b → cross_list_source result (tl_id l) →
     tasks l !! p = Some t →
     p ≠ relative_start (length (tasks l)) (index (source result)) →
     tasks_tbl db' !! task_id t = tasks_tbl db !! task_id t).
Proof.
  intros Hd Hholds [Hdl Hdt] Hrun db'.
  assert (b' = b → ws = [] →
    dense_lists db' (length b') ∧
    (∀ l, l ∈ b' → ¬ cross_list_source result (tl_id l) →
       dense_tasks db' (tl_id l) (length (tasks l))) ∧
    (∀ l p t, l ∈ b → cross_list_source result (tl_id l) →
       tasks l !! p = Some t →
       p ≠ relative_start (length (tasks l)) (index (source result)) →
       tasks_tbl db' !! task_id t = tasks_tbl db !! task_id t)) as Hnoop.
  { intros -> ->. unfold db'. cbn [persist_all foldl]. by auto. }
  unfold onDragEnd in Hrun.
  destruct (destination result) as [dst|] eqn:Hdst;
    [|injection Hrun as <- <-; by apply Hnoop].
  destruct (decide (type result = "list")) as [Hty|Hty].
  { (* a list move *)
    rewrite reorder_lists_eq in Hrun.
    destruct (b !! relative_start (length b) (index (source result)))
      as [l|] eqn:Hl; [|done].
    injection Hrun as <- <-.
    unfold db'. clear db' Hnoop.
    match goal with |- context [list_writes ?x] => set (bnew := x) end.
    assert (bnew ≡ₚ b) as Hperm.
    { unfold bnew. rewrite spliced_in_Permutation.
      symmetry. by apply delete_Permutation. }
    rewrite persist_all_lists by apply list_writes_shape.
    split; [by apply (dense_lists_rewritten b)|]. split.
    - intros l' Hl' _. rewrite Hperm in Hl'. by apply Hdt.
    - intros l' p t _ (Hty' & _). congruence. }
  destruct (decide (type result = "task")) as [Hty'|Hty'];
    [|injection Hrun as <- <-; by apply Hnoop].
  destruct (find_list (droppableId (source result)) b) as [[si A]|] eqn:HA;
    [|unfold reorder_tasks in Hrun; rewrite HA in Hrun;
      injection Hrun as <- <-; by apply Hnoop].
  destruct (find_list (droppableId dst) b) as [[di B]|] eqn:HB;
    [|unfold reorder_tasks in Hrun; rewrite HA, HB in Hrun;
      injection Hrun as <- <-; by apply Hnoop].
  rewrite (reorder_tasks_eq _ _ _ _ _ _ _ HA HB) in Hrun.
  apply find_list_Some in HA as [HsA HidA].
  apply find_list_Some in HB as [HdB HidB].
  destruct (tasks A !! relative_start (length (tasks A)) (index (source result)))
    as [T|] eqn:HT; [|done].
  cbv zeta in Hrun. injection Hrun as <- <-.
  unfold db'. clear db' Hnoop.
  rewrite persist_all_tasks by apply task_writes_shape.
  cbn [task_lists_tbl tasks_tbl].
  apply lookup_lt_Some in HsA as Hsi. apply lookup_lt_Some in HdB as Hdi.
  split; [|split].
  - by rewrite !length_insert.
  - intros l Hl Hcross. apply list_elem_of_lookup_1 in Hl as [li Hl].
    destruct (decide (li = di)) as [->|Hnd].
    { rewrite list_lookup_insert_eq in Hl by by rewrite length_insert.
      injection Hl as <-. unfold with_tasks. cbn [tl_id tasks].
      by apply (dense_destination b db si di). }
    rewrite list_lookup_insert_ne in Hl by done.
    destruct (decide (li = si)) as [->|Hns].
    { rewrite list_lookup_insert_eq in Hl by done. injection Hl as <-.
      destruct Hcross. split; [done|]. split; [done|].
      exists dst. split; [done|]. simpl. rewrite <-HidB. intros Heq.
      apply Hnd. symmetry. by eapply (list_id_unique b). }
    rewrite list_lookup_insert_ne in Hl by done.
    apply (dense_untouched b db si di _ _ A B T Hd Hholds HsA HdB HT _ li);
      try done.
    apply Hdt. by eapply list_elem_of_lookup_2.
  - intros l p t Hl (_ & Hsrc & dst' & Hdst' & Hne) Ht Hp.
    simplify_eq.
    apply list_elem_of_lookup_1 in Hl as [li Hl].
    assert (li = si) as -> by (eapply list_id_unique; eauto; congruence).
    simplify_eq.
    apply (source_rows_kept b db si di _ _ A B T Hd Hholds HsA HdB HT p t);
      try done.
    intros ->. by simplify_eq.
Qed.

Lemma reorder_positions_dense_except_source_witness :
  let db' := persist_all writesAB_moved (persisted boardAB) in
  dense_lists db' 2 ∧ dense_tasks db' "B" 3 ∧
  tasks_tbl db' !! "t2" = tasks_tbl (persisted boardAB) !! "t2".
Proof.
  intros db'.
  destruct (reorder_positions_dense_except_source boardAB (persisted boardAB)
              moveAB boardAB_moved writesAB_moved boardAB_distinct
              (persisted_holds boardAB boardAB_distinct)
              (persisted_dense boardAB boardAB_distinct) eq_refl)
    as (Hlists & Htasks & Hsource).
  split; [exact Hlists|]. split.
  - apply (Htasks (mkTaskList "B" "done" [U1; mkTask "t1" "first" "B"; U2])).
    + apply (bool_decide_unpack _). by vm_compute.
    + intros (_ & Hsrc & _). discriminate Hsrc.
  - apply (Hsource (mkTaskList "A" "todo" [T1; T2; T3]) 1 T2).
    + apply (bool_decide_unpack _). by vm_compute.
    + split; [reflexivity|]. split; [reflexivity|].
      exists (mkLocation "B" 1). split; [reflexivity|discriminate].
    + reflexivity.
    + vm_compute. lia.
Defined.

(** C2 as stated fails on the source list of a move to another list: the
    board [A = [t1; t2; t3]], [B = [u1; u2]] is stored with dense positions,
    [t1] is moved to index 1 of [B], and afterwards the rows of list [A] are
    [t2] at position 1 and [t3] at position 2, so no row of [A] has position
    0 and the positions of [A] are not [0 .. n-1] for any [n]. *)
Lemma source_list_positions_not_dense :
  distinct_ids boardAB ∧
  holds (persisted boardAB) boardAB ∧
  dense (persisted boardAB) boardAB ∧
  onDragEnd boardAB moveAB = Returned boardAB_moved writesAB_moved ∧
  mkTaskList "A" "todo" [T2; T3] ∈ boardAB_moved ∧
  tasks_tbl (persist_all writesAB_moved (persisted boardAB)) !! "t2"
    = Some (task_row "A" 1 T2) ∧
  tasks_tbl (persist_all writesAB_moved (persisted boardAB)) !! "t3"
    = Some (task_row "A" 2 T3) ∧
  ¬ dense_tasks (persist_all writesAB_moved (persisted boardAB)) "A" 2 ∧
  ¬ dense (persist_all writesAB_moved (persisted boardAB)) boardAB_moved ∧
  ¬ ∃ n, dense_tasks (persist_all writesAB_moved (persisted boardAB)) "A" n.
Proof.
  pose proof boardAB_distinct as Hd.
  assert (tasks_tbl (persist_all writesAB_moved (persisted boardAB)) !! "t3"
          = Some (task_row "A" 2 T3)) as Ht3 by (vm_compute; reflexivity).
  assert (map_Forall (λ (_ : string) (r : Row),
            ¬ (r !! "list_id" = Some (VStr "A") ∧ r !! "position" = Some (VNum 0)))
            (tasks_tbl (persist_all writesAB_moved (persisted boardAB)))) as Hno0
    by (apply (bool_decide_unpack _); by vm_compute).
  assert (∀ n, ¬ dense_tasks (persist_all writesAB_moved (persisted boardAB)) "A" n)
    as Hgap.
  { intros n (Hbound & Hall & _).
    destruct (Hbound "t3" _ Ht3) as (p & Hp & Hlt); [by vm_compute|].
    assert (p = 2) as -> by (vm_compute in Hp; congruence).
    destruct (Hall 0) as (k & r & Hr & Hin & Hpos); [lia|].
    by apply (Hno0 k r Hr). }
  assert (mkTaskList "A" "todo" [T2; T3] ∈ boardAB_moved) as HinA
    by (apply (bool_decide_unpack _); by vm_compute).
  split; [done|].
  split; [by apply persisted_holds|].
  split; [by apply persisted_dense|].
  split; [reflexivity|].
  split; [done|].
  split; [vm_compute; reflexivity|].
  split; [exact Ht3|].
  split; [apply Hgap|].
  split; [intros [_ Hall]; by apply (Hgap 2), (Hall _ HinA)|].
  intros [n Hn]. by apply (Hgap n).
Qed.

(** ** What a run that returns has done *)

Lemma onDragEnd_Returned (b : Board) (result : DropResult) b' ws :
  onDragEnd b result = Returned b' ws →
  (b' = b ∧ ws = []) ∨
  (∃ dst l,
     type result = "list" ∧ destination result = Some dst ∧
     let i := relative_start (length b) (index (source result)) in
     let j := relative_start (length (delete i b)) (index dst) in
     b !! i = Some l ∧
     b' = take j (delete i b) ++ l :: drop j (delete i b) ∧
     ws = list_writes b') ∨
  (∃ dst si di A B T,
     type result = "task" ∧ destination result = Some dst ∧
     find_list (droppableId (source result)) b = Some (si, A) ∧
     find_list (droppableId dst) b = Some (di, B) ∧
     let i := relative_start (length (tasks A)) (index (source result)) in
     let rest := if decide (si = di) then delete i (tasks A) else tasks B in
     let j := relative_start (length rest) (index dst) in
     let dstTasks := take j rest ++ with_list_id T (tl_id B) :: drop j rest in
     tasks A !! i = Some T ∧
     b' = <[di := with_tasks B dstTasks]>
            (<[si := with_tasks A (delete i (tasks A))]> b) ∧
     ws = task_writes (tl_id B) dstTasks).
Proof.
  intros Hrun. unfold onDragEnd in Hrun.
  destruct (destination result) as [dst|] eqn:Hdst;
    [|injection Hrun as <- <-; by left].
  destruct (decide (type result = "list")) as [Hty|Hty].
  { rewrite reorder_lists_eq in Hrun.
    destruct (b !! relative_start (length b) (index (source result)))
      as [l|] eqn:Hl; [|done].
    injection Hrun as <- <-. right. left. by exists dst, l. }
  destruct (decide (type result = "task")) as [Hty'|Hty'];
    [|injection Hrun as <- <-; by left].
  destruct (find_list (droppableId (source result)) b) as [[si A]|] eqn:HA;
    [|unfold reorder_tasks in Hrun; rewrite HA in Hrun;
      injection Hrun as <- <-; by left].
  destruct (find_list (droppableId dst) b) as [[di B]|] eqn:HB;
    [|unfold reorder_tasks in Hrun; rewrite HA, HB in Hrun;
      injection Hrun as <- <-; by left].
  rewrite (reorder_tasks_eq _ _ _ _ _ _ _ HA HB) in Hrun.
  destruct (tasks A !! relative_start (length (tasks A)) (index (source result)))
    as [T|] eqn:HT; [|done].
  cbv zeta in Hrun. injection Hrun as <- <-.
  right. right. by exists dst, si, di, A, B, T.
Qed.
(** ** Nothing is lost or duplicated by a move *)

Lemma bind_lookup_Permutation {A B} (f : A → list B) (l : list A) k x :
  l !! k = Some x → l ≫= f ≡ₚ f x ++ (delete k l ≫= f).
Proof. intros Hx. by rewrite (delete_Permutation l k x Hx) at 1. Qed.

Lemma delete_insert_same {A} (l : list A) k y : delete k (<[k:=y]> l) = delete k l.
Proof.
  revert k. induction l as [|a l IH]; intros [|k]; simpl; try done.
  by rewrite IH.
Qed.

Lemma bind_insert_Permutation {A B} (f : A → list B) (l : list A) k x y :
  l !! k = Some x → f y ++ (delete k l ≫= f) ≡ₚ (<[k:=y]> l) ≫= f.
Proof.
  intros Hx.
  rewrite (bind_lookup_Permutation f (<[k:=y]> l) k y).
  - by rewrite delete_insert_same.
  - apply list_lookup_insert_eq. by eapply lookup_lt_Some.
Qed.

(** The key of a task: what a move must carry along unchanged. *)
Lemma task_move_conserves {K} (key : Task → K) (b : Board) si di i j A B T :
  (∀ t id, key (with_list_id t id) = key t) →
  b !! si = Some A → b !! di = Some B → tasks A !! i = Some T →
  let rest := if decide (si = di) then delete i (tasks A) else tasks B in
  let dstTasks := take j rest ++ with_list_id T (tl_id B) :: drop j rest in
  (<[di := with_tasks B dstTasks]> (<[si := with_tasks A (delete i (tasks A))]> b))
    ≫= (λ l, key <$> tasks l)
  ≡ₚ b ≫= (λ l, key <$> tasks l).
Proof.
  intros Hkey HA HB HT.
  set (f := λ l : TaskList, key <$> tasks l).
  assert (∀ rest, key <$> (take j rest ++ with_list_id T (tl_id B) :: drop j rest)
                  ≡ₚ key T :: (key <$> rest)) as Hdst.
  { intros rest. by rewrite spliced_in_Permutation, fmap_cons, Hkey. }
  assert (key <$> tasks A ≡ₚ key T :: (key <$> delete i (tasks A))) as Hsrc.
  { by rewrite (delete_Permutation _ _ _ HT) at 1. }
  destruct (decide (si = di)) as [->|Hne]; cbv zeta.
  - simplify_eq. rewrite list_insert_insert_eq.
    rewrite <-(bind_insert_Permutation f b di A _ HA).
    rewrite (bind_lookup_Permutation f b di A HA).
    apply Permutation_app_tail. unfold f. cbn [tasks with_tasks].
    by rewrite Hdst, Hsrc.
  - set (b1 := <[si := with_tasks A (delete i (tasks A))]> b).
    assert (b1 !! di = Some B) as HB1
      by (unfold b1; by rewrite list_lookup_insert_ne).
    rewrite <-(bind_insert_Permutation f b1 di B _ HB1).
    rewrite (bind_lookup_Permutation f b si A HA).
    assert (f B ++ (delete di b1 ≫= f) ≡ₚ
            f (with_tasks A (delete i (tasks A))) ++ (delete si b ≫= f)) as Hmid.
    { rewrite <-(bind_lookup_Permutation f b1 di B HB1).
      unfold b1. by rewrite <-(bind_insert_Permutation f b si A _ HA). }
    unfold f at 1 3. cbn [tasks with_tasks]. rewrite Hdst, Hsrc.
    simpl. apply Permutation_skip. exact Hmid.
Qed.

Lemma task_move_list_ids (b : Board) si di A B ts ts' :
  b !! si = Some A → b !! di = Some B →
  (λ l, (tl_id l, title l)) <$>
    (<[di := with_tasks B ts]> (<[si := with_tasks A ts']> b))
  = (λ l, (tl_id l, title l)) <$> b.
Proof.
  intros HA HB. rewrite !list_fmap_insert. cbn [tl_id title with_tasks].
  rewrite (list_insert_id _ si); [|by rewrite list_lookup_fmap, HA].
  apply list_insert_id. by rewrite list_lookup_fmap, HB.
Qed.

Lemma task_move_tl_ids (b : Board) si di A B ts ts' :
  b !! si = Some A → b !! di = Some B →
  tl_id <$> (<[di := with_tasks B ts]> (<[si := with_tasks A ts']> b))
  = tl_id <$> b.
Proof.
  intros HA HB. rewrite !list_fmap_insert. cbn [tl_id with_tasks].
  rewrite (list_insert_id _ si); [|by rewrite list_lookup_fmap, HA].
  apply list_insert_id. by rewrite list_lookup_fmap, HB.
Qed.

(** X1: a run of the drag handler that returns loses, duplicates and edits
    nothing: the lists of the new board are those of the old one up to order
    and up to their task sequences, the tasks are the same up to their
    position and list reference, and ids that were distinct stay distinct.
    A list move only permutes the lists, and any other run keeps the lists
    in their order. *)
Theorem onDragEnd_conserves (b : Board) (result : DropResult) b' ws :
  onDragEnd b result = Returned b' ws →
  (λ l, (tl_id l, title l)) <$> b' ≡ₚ (λ l, (tl_id l, title l)) <$> b ∧
  (b' ≫= λ l, (λ t, (task_id t, content t)) <$> tasks l)
    ≡ₚ (b ≫= λ l, (λ t, (task_id t, content t)) <$> tasks l) ∧
  (distinct_ids b → distinct_ids b') ∧
  (type result = "list" → b' ≡ₚ b) ∧
  (type result ≠ "list" →
     (λ l, (tl_id l, title l)) <$> b' = (λ l, (tl_id l, title l)) <$> b).
Proof.
  intros Hrun.
  assert (tl_id <$> b' ≡ₚ tl_id <$> b ∧
          task_id <$> (b' ≫= tasks) ≡ₚ task_id <$> (b ≫= tasks) →
          distinct_ids b → distinct_ids b') as Hdistinct.
  { intros [H1 H2] [Hd1 Hd2]. split; [by rewrite H1|by rewrite H2]. }
  assert (∀ c : Board, task_id <$> (c ≫= tasks) = c ≫= λ l, task_id <$> tasks l)
    as Hflat.
  { intros c. induction c as [|l c IH]; csimpl; [done|].
    by rewrite fmap_app, IH. }
  apply onDragEnd_Returned in Hrun
    as [[-> ->]|[(dst & l & Hty & _ & Hl & -> & _)
                |(dst & si & di & A & B & T & Hty & _ & HA & HB & HT & -> & _)]].
  - done.
  - cbv zeta in Hl.
    match goal with |- context [take ?j (delete ?i b) ++ l :: _] =>
      assert (take j (delete i b) ++ l :: drop j (delete i b) ≡ₚ b) as Hperm
        by (rewrite spliced_in_Permutation; symmetry; by apply delete_Permutation)
    end.
    split; [by rewrite Hperm|]. split; [by rewrite Hperm|].
    split; [apply Hdistinct; by rewrite Hperm|]. split; [done|]. done.
  - cbv zeta in HT |- *.
    apply find_list_Some in HA as [HA _]. apply find_list_Some in HB as [HB _].
    split; [by rewrite (task_move_list_ids b si di A B _ _ HA HB)|].
    split; [by apply (task_move_conserves _ b si di _ _ A B T)|].
    split; [|split; [congruence|]].
    + apply Hdistinct. split.
      * by rewrite (task_move_tl_ids b si di A B _ _ HA HB).
      * rewrite !Hflat. by apply (task_move_conserves _ b si di _ _ A B T).
    + intros _. apply (task_move_list_ids b si di A B _ _ HA HB).
Qed.

Lemma onDragEnd_conserves_witness :
  distinct_ids boardAB_moved ∧
  (boardAB_moved ≫= λ l, (λ t, (task_id t, content t)) <$> tasks l)
    ≡ₚ (boardAB ≫= λ l, (λ t, (task_id t, content t)) <$> tasks l).
Proof.
  destruct (onDragEnd_conserves boardAB moveAB boardAB_moved writesAB_moved eq_refl)
    as (_ & Htasks & Hd & _).
  split; [exact (Hd boardAB_distinct) | exact Htasks].
Defined.

Lemma onDragEnd_owned_witness : owned boardAB_moved.
Proof.
  exact (onDragEnd_owned boardAB moveAB boardAB_moved writesAB_moved
           boardAB_owned eq_refl).
Defined.

(** ** Undoing a move *)

(** X3: a list move with both indices in range is undone by the move in the
    opposite direction: dragging the list from [i] to [j] and then from [j]
    to [i] gives back the board. *)
Theorem list_move_undone (b : Board) (i j : nat) (s d : string) :
  i < length b → j < length b →
  ∃ b' ws ws',
    onDragEnd b (dropped "list" s (Z.of_nat i) d (Z.of_nat j)) = Returned b' ws ∧
    onDragEnd b' (dropped "list" d (Z.of_nat j) s (Z.of_nat i)) = Returned b ws'.
Proof.
  intros Hi Hj.
  destruct (lookup_lt_is_Some_2 b i Hi) as [m Hm].
  assert (length (delete i b) = length b - 1) as Hrest
    by (rewrite length_delete by eauto; lia).
  set (b' := take j (delete i b) ++ m :: drop j (delete i b)).
  assert (length b' = length b) as Hlen
    by (unfold b'; rewrite length_spliced_in; lia).
  exists b', (list_writes b'), (list_writes b). split.
  - unfold onDragEnd, dropped. cbn [destination type source].
    rewrite decide_True by done. rewrite reorder_lists_eq. cbn [index].
    rewrite relative_start_nat by lia. rewrite Hm.
    by rewrite relative_start_nat by lia.
  - unfold onDragEnd, dropped. cbn [destination type source].
    rewrite decide_True by done. rewrite reorder_lists_eq. cbn [index].
    rewrite relative_start_nat by lia.
    assert (b' !! j = Some m) as -> by (apply lookup_spliced_in; lia).
    assert (delete j b' = delete i b) as -> by (apply delete_spliced_in; lia).
    rewrite relative_start_nat by lia.
    by rewrite (splice_back b i m Hm).
Qed.

Lemma list_move_undone_witness :
  ∃ b' ws ws',
    onDragEnd [L0; L1; L2] (dropped "list" "board" (Z.of_nat 0) "board" (Z.of_nat 2))
      = Returned b' ws ∧
    onDragEnd b' (dropped "list" "board" (Z.of_nat 2) "board" (Z.of_nat 0))
      = Returned [L0; L1; L2] ws'.
Proof. apply (list_move_undone [L0; L1; L2] 0 2); simpl; lia. Defined.

Lemma find_list_index (id : string) (b : Board) :
  fst <$> find_list id b = fst <$> list_find (λ x, x = id) (tl_id <$> b).
Proof.
  unfold find_list. rewrite list_find_fmap.
  by destruct (list_find _ b) as [[k l]|].
Qed.

(** [find] reaches the same entry when the ids of the entries are the same. *)
Lemma find_list_same_ids (id : string) (b b' : Board) k l :
  tl_id <$> b' = tl_id <$> b → find_list id b = Some (k, l) →
  ∃ l', find_list id b' = Some (k, l') ∧ b' !! k = Some l'.
Proof.
  intros Hids Hfind.
  pose proof (find_list_index id b') as H'. rewrite Hids in H'.
  rewrite <-find_list_index, Hfind in H'.
  destruct (find_list id b') as [[k' l']|] eqn:Hf'; [|done].
  simpl in H'. injection H' as ->. exists l'. split; [done|].
  by apply find_list_Some in Hf' as [? _].
Qed.

(** X4: on a board whose tasks refer to the list that holds them, a task
    move with both indices in range, within a list or to another list, is
    undone by the move in the opposite direction: the board is back as it
    was, the list reference of the task included. *)
Theorem task_move_undone (b : Board) (src dst : Location) si di A B (i j : nat) :
  owned b →
  find_list (droppableId src) b = Some (si, A) →
  find_list (droppableId dst) b = Some (di, B) →
  index src = Z.of_nat i → index dst = Z.of_nat j →
  i < length (tasks A) →
  j ≤ length (if decide (si = di) then delete i (tasks A) else tasks B) →
  ∃ b' ws ws',
    onDragEnd b (mkDropResult "task" src (Some dst)) = Returned b' ws ∧
    onDragEnd b' (mkDropResult "task" dst (Some src)) = Returned b ws'.
Proof.
  intros Ho HA HB Hi Hj Hlti Hlej.
  destruct (lookup_lt_is_Some_2 (tasks A) i Hlti) as [T HT].
  apply find_list_Some in HA as HA'. destruct HA' as [HsA HidA].
  apply find_list_Some in HB as HB'. destruct HB' as [HdB HidB].
  apply lookup_lt_Some in HsA as Hsi. apply lookup_lt_Some in HdB as Hdi.
  assert (length (delete i (tasks A)) = length (tasks A) - 1) as Hsrclen
    by (rewrite length_delete by eauto; lia).
  assert (list_id T = tl_id A) as HownT by by eapply owned_lookup.
  remember (if decide (si = di) then delete i (tasks A) else tasks B)
    as rest eqn:Hrest.
  set (T' := with_list_id T (tl_id B)).
  set (dstTasks := take j rest ++ T' :: drop j rest).
  set (b' := <[di := with_tasks B dstTasks]>
               (<[si := with_tasks A (delete i (tasks A))]> b)).
  assert (onDragEnd b (mkDropResult "task" src (Some dst))
          = Returned b' (task_writes (tl_id B) dstTasks)) as Hrun.
  { unfold onDragEnd. cbn [destination type source].
    rewrite decide_False, decide_True by done.
    rewrite (reorder_tasks_eq _ _ _ _ _ _ _ HA HB), Hi, Hj.
    rewrite relative_start_nat by lia. rewrite HT. cbv zeta.
    rewrite <-Hrest. by rewrite relative_start_nat by done. }
  assert (tl_id <$> b' = tl_id <$> b) as Hids
    by apply (task_move_tl_ids b si di A B _ _ HsA HdB).
  destruct (find_list_same_ids _ b b' _ _ Hids HB) as (B' & HB' & HdB').
  destruct (find_list_same_ids _ b b' _ _ Hids HA) as (A' & HA' & HsA').
  assert (B' = with_tasks B dstTasks) as ->.
  { unfold b' in HdB'. rewrite list_lookup_insert_eq in HdB'
      by by rewrite length_insert. by injection HdB'. }
  exists b', (task_writes (tl_id B) dstTasks), (task_writes (tl_id A) (tasks A)).
  split; [done|].
  unfold onDragEnd. cbn [destination type source].
  rewrite decide_False, decide_True by done.
  rewrite (reorder_tasks_eq _ _ _ _ _ _ _ HB' HA'), Hi, Hj.
  cbn [tasks with_tasks tl_id].
  assert (length dstTasks = S (length rest)) as Hdstlen
    by apply length_spliced_in.
  rewrite relative_start_nat by lia.
  assert (dstTasks !! j = Some T') as -> by by apply lookup_spliced_in.
  assert (delete j dstTasks = rest) as -> by by apply delete_spliced_in.
  cbv zeta.
  assert (with_list_id T' (tl_id A) = T) as HbackT.
  { unfold T', with_list_id. cbn [task_id content]. rewrite <-HownT.
    by destruct T. }
  destruct (decide (si = di)) as [->|Hne].
  - simplify_eq. rewrite decide_True by done.
    cbn [tasks with_tasks tl_id title].
    rewrite relative_start_nat by lia.
    rewrite HbackT, (splice_back (tasks A) i T HT).
    unfold b'. rewrite !list_insert_insert_eq.
    assert (with_tasks (with_tasks A dstTasks) (tasks A) = A) as ->
      by by destruct A.
    by rewrite list_insert_id.
  - rewrite decide_False by done.
    assert (A' = with_tasks A (delete i (tasks A))) as ->.
    { unfold b' in HsA'. rewrite list_lookup_insert_ne in HsA' by done.
      rewrite list_lookup_insert_eq in HsA' by done. by injection HsA'. }
    cbn [tasks with_tasks tl_id title].
    rewrite relative_start_nat by lia.
    rewrite HbackT, (splice_back (tasks A) i T HT).
    unfold b'. rewrite list_insert_insert_eq. subst rest.
    assert (with_tasks (with_tasks B dstTasks) (tasks B) = B) as ->
      by by destruct B.
    assert (with_tasks (with_tasks A (delete i (tasks A))) (tasks A) = A) as ->
      by by destruct A.
    rewrite (list_insert_insert_ne _ si di) by done.
    rewrite list_insert_insert_eq, (list_insert_id b si A HsA).
    by rewrite list_insert_id.
Qed.

Lemma task_move_undone_witness :
  ∃ b' ws ws',
    onDragEnd boardAB (mkDropResult "task" (mkLocation "A" 0) (Some (mkLocation "B" 1)))
      = Returned b' ws ∧
    onDragEnd b' (mkDropResult "task" (mkLocation "B" 1) (Some (mkLocation "A" 0)))
      = Returned boardAB ws'.
Proof.
  apply (task_move_undone boardAB (mkLocation "A" 0) (mkLocation "B" 1) 0 1
           (mkTaskList "A" "todo" [T1; T2; T3]) (mkTaskList "B" "done" [U1; U2])
           0 1 boardAB_owned);
    [reflexivity | reflexivity | reflexivity | reflexivity
    | simpl; lia | simpl; lia].
Defined.

(** ** Exactly when the handler throws *)

Lemma splice_source_missing {A} (a : list A) (start : Z) :
  a !! relative_start (length a) start = None ↔
  (Z.of_nat (length a) ≤ start)%Z ∨ a = [].
Proof.
  rewrite lookup_ge_None. unfold relative_start. split.
  - intros Hge. case_decide.
    + right. apply length_zero_iff_nil. lia.
    + left. lia.
  - intros [Hge| ->]; [|simpl; case_decide; lia].
    case_decide; lia.
Qed.

(** X5: a move with a destination throws exactly when the source index is
    at or past the count of the source container, or the container is
    empty; every other source index, the negative ones included, moves an
    element. *)
Theorem drag_throws_exactly (b : Board) (result : DropResult) (dst : Location) :
  destination result = Some dst →
  (type result = "list" →
     ((∃ memory ws, onDragEnd b result = TypeError memory ws) ↔
      (Z.of_nat (length b) ≤ index (source result))%Z ∨ b = [])) ∧
  (type result = "task" →
     ∀ si di A B,
       find_list (droppableId (source result)) b = Some (si, A) →
       find_list (droppableId dst) b = Some (di, B) →
       ((∃ memory ws, onDragEnd b result = TypeError memory ws) ↔
        (Z.of_nat (length (tasks A)) ≤ index (source result))%Z ∨ tasks A = [])).
Proof.
  intros Hdst. split.
  - intros Hty. unfold onDragEnd. rewrite Hdst, Hty, decide_True by done.
    rewrite reorder_lists_eq, <-splice_source_missing.
    destruct (b !! relative_start (length b) (index (source result))) as [l|].
    + split; [by intros (? & ? & ?)|done].
    + split; [done|]. intros _. eauto.
  - intros Hty si di A B HA HB. unfold onDragEnd. rewrite Hdst, Hty.
    rewrite decide_False, decide_True by done.
    rewrite (reorder_tasks_eq _ _ _ _ _ _ _ HA HB), <-splice_source_missing.
    destruct (tasks A !! relative_start (length (tasks A)) (index (source result)))
      as [t|].
    + split; [by intros (? & ? & ?)|done].
    + split; [done|]. intros _. eauto.
Qed.

Lemma drag_throws_exactly_witness :
  ((∃ memory ws, onDragEnd [L0; L1] (dropped "list" "board" (-5) "board" 0)
                 = TypeError memory ws) ↔
   (Z.of_nat (length [L0; L1]) ≤ -5)%Z ∨ [L0; L1] = [])
  ∧ ((∃ memory ws, onDragEnd boardAB (dropped "task" "A" 3 "B" 0)
                   = TypeError memory ws) ↔
     (Z.of_nat (length [T1; T2; T3]) ≤ 3)%Z ∨ [T1; T2; T3] = []).
Proof.
  split.
  - apply (drag_throws_exactly [L0; L1] (dropped "list" "board" (-5) "board" 0)
             (mkLocation "board" 0)); reflexivity.
  - apply (proj2 (drag_throws_exactly boardAB (dropped "task" "A" 3 "B" 0)
                    (mkLocation "B" 0) eq_refl) eq_refl 0 1
             (mkTaskList "A" "todo" [T1; T2; T3])
             (mkTaskList "B" "done" [U1; U2])); reflexivity.
Defined.

(** ** Destination indices out of range *)

(** X6: a destination index out of range is clamped, not rejected: with a
    source index in range, a list dropped at or past the last index ends up
    last, and a list dropped at index 0 or at a negative index that reaches
    before the start ends up first. *)
Theorem list_destination_clamped (b : Board) (result : DropResult)
    (dst : Location) (i : nat) (movedList : TaskList) :
  type result = "list" →
  destination result = Some dst →
  index (source result) = Z.of_nat i →
  b !! i = Some movedList →
  ((Z.of_nat (length b) - 1 ≤ index dst)%Z →
     onDragEnd b result =
       Returned (delete i b ++ [movedList]) (list_writes (delete i b ++ [movedList]))) ∧
  ((index dst ≤ 1 - Z.of_nat (length b) ∨ index dst = 0)%Z →
     onDragEnd b result =
       Returned (movedList :: delete i b) (list_writes (movedList :: delete i b))).
Proof.
  intros Hty Hdst Hi Hm. apply lookup_lt_Some in Hm as Hlt.
  assert (length (delete i b) = length b - 1) as Hrest
    by (rewrite length_delete by eauto; lia).
  unfold onDragEnd. rewrite Hdst, Hty, decide_True by done.
  rewrite reorder_lists_eq, Hi.
  rewrite relative_start_nat by lia. rewrite Hm. cbv zeta.
  split; intros Hj.
  - rewrite relative_start_ge by lia.
    by rewrite take_ge, drop_ge by lia.
  - assert (relative_start (length (delete i b)) (index dst) = 0) as ->
      by (unfold relative_start; case_decide; lia).
    by rewrite take_0, drop_0.
Qed.

Lemma list_destination_clamped_witness :
  onDragEnd [L0; L1; L2] (dropped "list" "board" 0 "board" 7)
  = Returned [L1; L2; L0] (list_writes [L1; L2; L0])
  ∧ onDragEnd [L0; L1; L2] (dropped "list" "board" 2 "board" (-9))
    = Returned [L2; L0; L1] (list_writes [L2; L0; L1]).
Proof.
  split.
  - apply (list_destination_clamped [L0; L1; L2]
             (dropped "list" "board" 0 "board" 7) (mkLocation "board" 7) 0 L0);
      [reflexivity | reflexivity | reflexivity | reflexivity | simpl; lia].
  - apply (list_destination_clamped [L0; L1; L2]
             (dropped "list" "board" 2 "board" (-9)) (mkLocation "board" (-9)) 2 L2);
      [reflexivity | reflexivity | reflexivity | reflexivity | simpl; lia].
Defined.

(** ** The store after the writes of a move have landed *)

Lemma returned_distinct (b : Board) (result : DropResult) b' ws :
  distinct_ids b → onDragEnd b result = Returned b' ws → distinct_ids b'.
Proof.
  intros [Hd1 Hd2] Hrun.
  assert (∀ c : Board, task_id <$> (c ≫= tasks) = c ≫= λ l, task_id <$> tasks l)
    as Hflat.
  { intros c. induction c as [|l c IH]; csimpl; [done|].
    by rewrite fmap_app, IH. }
  apply onDragEnd_Returned in Hrun
    as [[-> ->]|[(dst & l & _ & _ & Hl & -> & _)
                |(dst & si & di & A & B & T & _ & _ & HA & HB & HT & -> & _)]].
  - done.
  - cbv zeta in Hl. apply (distinct_ids_Permutation b); [|done].
    rewrite spliced_in_Permutation. symmetry. by apply delete_Permutation.
  - cbv zeta in HT |- *.
    apply find_list_Some in HA as [HA _]. apply find_list_Some in HB as [HB _].
    split.
    + by rewrite (task_move_tl_ids b si di A B _ _ HA HB).
    + rewrite Hflat in Hd2 |- *.
      by rewrite (task_move_conserves task_id b si di _ _ A B T).
Qed.

Lemma list_rows_with_tasks (b : Board) k l ts :
  b !! k = Some l → list_rows (<[k := with_tasks l ts]> b) = list_rows b.
Proof.
  intros Hl. unfold list_rows. apply list_eq. intros p.
  rewrite !list_lookup_imap.
  destruct (decide (p = k)) as [->|Hne].
  - rewrite list_lookup_insert_eq by by eapply lookup_lt_Some.
    rewrite Hl. simpl. do 2 f_equal.
  - by rewrite list_lookup_insert_ne.
Qed.

Lemma option_eq_Some {A} (x y : option A) :
  (∀ a, x = Some a ↔ y = Some a) → x = y.
Proof.
  intros H. destruct x as [a|].
  - symmetry. by apply H.
  - destruct y as [a'|]; [|done]. by apply H.
Qed.

(** A move inside one list: the store ends up holding exactly the new
    board. *)
Lemma within_list_store (b : Board) si i j A T :
  distinct_ids b →
  distinct_ids
    (<[si := with_tasks A
               (take j (delete i (tasks A)) ++ with_list_id T (tl_id A)
                  :: drop j (delete i (tasks A)))]> b) →
  b !! si = Some A → tasks A !! i = Some T →
  let dstTasks := take j (delete i (tasks A)) ++ with_list_id T (tl_id A)
                    :: drop j (delete i (tasks A)) in
  persist_all (task_writes (tl_id A) dstTasks) (persisted b)
  = persisted (<[si := with_tasks A dstTasks]> b).
Proof.
  intros Hd Hd' HA HT dstTasks.
  set (b' := <[si := with_tasks A dstTasks]> b) in *.
  pose proof (persisted_holds b Hd) as Hholds.
  apply lookup_lt_Some in HA as Hsi.
  assert (b' !! si = Some (with_tasks A dstTasks)) as HA'
    by by apply list_lookup_insert_eq.
  pose proof (dst_row b (persisted b) si si i j A A T Hd Hholds HA HA HT) as Hrow.
  pose proof (other_row b (persisted b) si si i j A A T Hd Hholds HA HA HT) as Hother.
  pose proof (dst_origin b si si i j A A T HA HA HT) as Horigin.
  pose proof (old_dst_covered b si si i j A A T HA HA HT) as Hcovered.
  rewrite decide_True in Hrow, Hother, Horigin, Hcovered by done.
  fold dstTasks in Hrow, Hother, Horigin, Hcovered.
  rewrite persist_all_tasks by apply task_writes_shape.
  unfold persisted at 3. f_equal.
  { cbn [task_lists_tbl persisted]. unfold b'. by rewrite list_rows_with_tasks. }
  change (list_to_map (b' ≫= task_rows)) with (tasks_tbl (persisted b')).
  apply map_eq. intros k.
  destruct (decide (k ∈ task_id <$> dstTasks)) as [Hk|Hk].
  - apply list_elem_of_fmap in Hk as (t & -> & Ht).
    destruct (Horigin t Ht) as (li & l & p & t0 & _ & Hl & Ht0 & Hid & Hc & _).
    apply list_elem_of_lookup_1 in Ht as [q Hq].
    destruct (Hrow q t Hq) as (r0 & Hr0 & ->).
    rewrite <-Hid, (persisted_task_lookup b li l p t0 Hd Hl Ht0) in Hr0.
    apply (inj Some) in Hr0 as <-.
    rewrite task_row_updated.
    rewrite (persisted_task_lookup b' si (with_tasks A dstTasks) q t Hd' HA' Hq).
    f_equal. by apply task_row_ext.
  - rewrite Hother by done. apply option_eq_Some. intros r. split; intros Hr.
    + apply persisted_task_inv in Hr as (li & l & p & t & Hl & Ht & <- & ->).
      assert (li ≠ si) as Hne.
      { intros ->. simplify_eq. apply Hk, Hcovered.
        by eapply list_elem_of_lookup_2. }
      apply (persisted_task_lookup b' li); [done| |done].
      unfold b'. by rewrite list_lookup_insert_ne.
    + apply persisted_task_inv in Hr as (li & l & p & t & Hl & Ht & <- & ->).
      assert (li ≠ si) as Hne.
      { intros ->. rewrite HA' in Hl. injection Hl as <-.
        apply Hk, list_elem_of_fmap_2. by eapply list_elem_of_lookup_2. }
      apply (persisted_task_lookup b li); [done| |done].
      unfold b' in Hl. by rewrite list_lookup_insert_ne in Hl.
Qed.

(** A list move: the store ends up holding exactly the new board. *)
Lemma list_move_store (b b' : Board) :
  distinct_ids b → b' ≡ₚ b →
  persist_all (list_writes b') (persisted b) = persisted b'.
Proof.
  intros Hd Hp. pose proof (distinct_ids_Permutation b b' Hp Hd) as Hd'.
  destruct (list_writes_shape b') as [Hfrom Hshape].
  destruct (apply_updates_by_id _ _ (task_lists_tbl (persisted b))
              (proj1 (persisted_keyed b)) Hshape (proj1 Hd')) as [Hrow Hsame].
  rewrite persist_all_lists by done. unfold persisted at 3. f_equal.
  - change (list_to_map (list_rows b')) with (task_lists_tbl (persisted b')).
    apply map_eq. intros k.
    destruct (decide (k ∈ tl_id <$> b')) as [Hk|Hk].
    + apply list_elem_of_fmap in Hk as (l & -> & Hl).
      apply list_elem_of_lookup_1 in Hl as [p Hl].
      assert (l ∈ b) as Hin by (rewrite <-Hp; by eapply list_elem_of_lookup_2).
      apply list_elem_of_lookup_1 in Hin as [q Hq].
      erewrite Hrow;
        [|by apply lookup_list_writes | by rewrite list_lookup_fmap, Hl].
      rewrite (persisted_list_lookup b q l Hd Hq).
      rewrite (persisted_list_lookup b' p l Hd' Hl).
      cbn [upd_values fmap option_fmap option_map].
      by rewrite list_row_updated.
    + rewrite Hsame by done. cbn [task_lists_tbl persisted].
      rewrite !not_elem_of_list_to_map_1; [done|..];
        rewrite list_rows_keys; [done|by rewrite <-Hp].
  - cbn [tasks_tbl persisted]. apply list_to_map_proper.
    + rewrite all_task_rows_keys. apply Hd.
    + by rewrite Hp.
Qed.

(** X7: when ids are distinct and the store holds exactly the board, then
    after the writes of a list move or of a task move inside one list the
    store holds exactly the new board: every persisted position is the
    index in memory. *)
Theorem store_follows_move (b : Board) (result : DropResult) b' ws :
  distinct_ids b →
  onDragEnd b result = Returned b' ws →
  (type result = "task" → ∀ dst, destination result = Some dst →
     droppableId dst = droppableId (source result)) →
  persist_all ws (persisted b) = persisted b'.
Proof.
  intros Hd Hrun Hsame.
  pose proof (returned_distinct b result b' ws Hd Hrun) as Hd'.
  apply onDragEnd_Returned in Hrun
    as [[-> ->]|[(dst & l & _ & _ & Hl & -> & ->)
                |(dst & si & di & A & B & T & Hty & Hdst & HA & HB & HT & -> & ->)]].
  - done.
  - cbv zeta in Hl. apply list_move_store; [done|].
    rewrite spliced_in_Permutation. symmetry. by apply delete_Permutation.
  - cbv zeta in HT, Hd' |- *.
    rewrite (Hsame Hty dst Hdst), HA in HB. injection HB as <- <-.
    apply find_list_Some in HA as [HA _].
    rewrite decide_True in Hd' |- * by done.
    rewrite list_insert_insert_eq in Hd' |- *.
    by apply within_list_store.
Qed.

Lemma store_follows_move_witness :
  persist_all (task_writes "A" [T2; T1; T3]) (persisted boardAB)
  = persisted [mkTaskList "A" "todo" [T2; T1; T3]; mkTaskList "B" "done" [U1; U2]].
Proof.
  apply (store_follows_move boardAB (dropped "task" "A" 0 "A" 1) _ _
           boardAB_distinct eq_refl).
  intros _ dst [= <-]. reflexivity.
Defined.

(** ** A run that throws *)

Lemma length_delete_past_end {A} (l : list A) i :
  length l ≤ i → length (delete i l) = length l.
Proof.
  intros Hi. rewrite delete_take_drop, length_app, length_take, length_drop. lia.
Qed.

(** X8: a run that ends in a TypeError changes nothing in a store that holds
    exactly the board: the only writes sent before the throw are those of
    the lists in front of the hole, which are still at their own index. *)
Theorem thrown_run_keeps_store (b : Board) (result : DropResult) memory ws :
  distinct_ids b →
  onDragEnd b result = TypeError memory ws →
  persist_all ws (persisted b) = persisted b.
Proof.
  intros Hd Hrun. unfold onDragEnd in Hrun.
  destruct (destination result) as [dst|]; [|done].
  destruct (decide (type result = "list")).
  - rewrite reorder_lists_eq in Hrun.
    destruct (b !! relative_start (length b) (index (source result)))
      as [l|] eqn:Hl; [done|].
    cbv zeta in Hrun. injection Hrun as _ <-.
    apply lookup_ge_None in Hl.
    apply persist_all_same. intros u Hu.
    apply (list_writes_repeat b u Hd).
    apply elem_of_lookup_imap_1 in Hu as (p & l & -> & Hp).
    apply lookup_take_Some in Hp as [Hp _].
    rewrite list_lookup_delete_lt in Hp by (apply lookup_lt_Some in Hp as Hlt;
      rewrite length_delete_past_end in Hlt; lia).
    apply (elem_of_lookup_imap_2
             (λ i l, mkUpdate "task_lists" [("position", VNum i)]
                              ("id", VStr (tl_id l))) _ _ _ Hp).
  - destruct (decide (type result = "task")); [|done].
    unfold reorder_tasks in Hrun.
    destruct (find_list (droppableId (source result)) b) as [[si A]|]; [|done].
    destruct (find_list (droppableId dst) b) as [[di B]|]; [|done].
    destruct (splice (tasks A) (index (source result)) 1 []) as [removed rest].
    destruct (head removed); [by destruct (splice _ _ _ _)|].
    destruct (splice _ _ _ _). by injection Hrun as _ <-.
Qed.

Lemma thrown_run_keeps_store_witness :
  persist_all [ mkUpdate "task_lists" [("position", VNum 0)] ("id", VStr "A") ]
    (persisted boardAB) = persisted boardAB.
Proof.
  apply (thrown_run_keeps_store boardAB (dropped "list" "board" 5 "board" 1)
           _ _ boardAB_distinct eq_refl).
Defined.

(** ** Drops the rendered board can report *)

(** X9: when ids are distinct, every drop result about what is rendered (a
    rendered draggable as source, a rendered droppable of the same type as
    destination, if any) is handled without a throw, whatever the
    destination index. *)
Theorem offered_drop_returns (b : Board) (result : DropResult) :
  distinct_ids b → offered b result →
  ∃ b' ws, onDragEnd b result = Returned b' ws.
Proof.
  intros Hd [(src & item & Hsrc & Hty & Hid & Hitem & Hidx) Hdest].
  unfold onDragEnd.
  destruct (destination result) as [dst|] eqn:Hdst; [|eauto].
  destruct (Hdest dst eq_refl) as (d & Hdin & Hdty & Hdid).
  unfold render in Hsrc, Hdin. apply elem_of_cons in Hsrc, Hdin.
  destruct (decide (type result = "list")) as [Hlist|Hlist].
  - destruct Hsrc as [->|Hsrc].
    + cbn [drop_items] in Hitem.
      apply elem_of_lookup_imap_1 in Hitem as (p & l & -> & Hl).
      cbn [drag_index] in Hidx. apply lookup_lt_Some in Hl as Hlt.
      rewrite reorder_lists_eq, Hidx.
      rewrite relative_start_nat by lia. rewrite Hl. eauto.
    + apply list_elem_of_fmap in Hsrc as (l & -> & _).
      cbn [drop_type] in Hty. congruence.
  - destruct Hsrc as [->|Hsrc]; [cbn [drop_type] in Hty; congruence|].
    apply list_elem_of_fmap in Hsrc as (l & -> & Hl).
    cbn [drop_type drop_id drop_items] in Hty, Hid, Hitem.
    rewrite decide_True by done.
    destruct Hdin as [->|Hdin]; [cbn [drop_type] in Hdty; congruence|].
    apply list_elem_of_fmap in Hdin as (l' & -> & Hl').
    cbn [drop_id] in Hdid.
    apply elem_of_lookup_imap_1 in Hitem as (p & t & -> & Ht).
    cbn [drag_index] in Hidx. apply lookup_lt_Some in Ht as Hlt.
    destruct (list_find_elem_of (λ x, tl_id x = droppableId (source result))
                b l Hl Hid) as [[si A] HA].
    destruct (list_find_elem_of (λ x, tl_id x = droppableId dst)
                b l' Hl' Hdid) as [[di B] HB].
    rewrite (reorder_tasks_eq _ _ _ _ _ _ _ HA HB).
    apply find_list_Some in HA as [HsA HidA].
    apply list_elem_of_lookup_1 in Hl as [li Hli].
    assert (si = li) as -> by (eapply list_id_unique; eauto; congruence).
    simplify_eq. rewrite Hidx.
    rewrite relative_start_nat by lia. rewrite Ht. eauto.
Qed.

Lemma offered_drop_returns_witness :
  ∃ b' ws, onDragEnd boardAB (dropped "task" "A" 2 "B" 40) = Returned b' ws.
Proof.
  apply (offered_drop_returns boardAB (dropped "task" "A" 2 "B" 40)
           boardAB_distinct).
  split.
  - exists (mkDroppable "A" "task"
              [mkDraggable "t1" 0; mkDraggable "t2" 1; mkDraggable "t3" 2]),
           (mkDraggable "t3" 2).
    split; [apply list_elem_of_In; simpl; auto|].
    split; [reflexivity|]. split; [reflexivity|].
    split; [apply list_elem_of_In; simpl; auto|reflexivity].
  - intros dst [= <-].
    exists (mkDroppable "B" "task" [mkDraggable "u1" 0; mkDraggable "u2" 1]).
    split; [apply list_elem_of_In; simpl; auto|].
    split; reflexivity.
Defined.

(** ** What the handler writes *)

(** X10: whatever the drop result and however the run ends, every write the
    drag handler sends is an update that selects one row by the id of a list
    or task of the board: for a list move it goes to [task_lists] and
    assigns [position] alone; for a task move it goes to [tasks] and assigns
    [position] and, as [list_id], the id the destination names. Ids, titles
    and contents are never written. *)
Theorem drag_writes_only_positions (b : Board) (result : DropResult) (u : Update) :
  u ∈ writes_of (onDragEnd b result) →
  (type result = "list" ∧ upd_from u = "task_lists" ∧
   (∃ k p, k ∈ tl_id <$> b ∧ upd_eq u = ("id", VStr k) ∧
           upd_values u = [("position", VNum p)])) ∨
  (type result = "task" ∧ upd_from u = "tasks" ∧
   (∃ k p dst, k ∈ task_id <$> (b ≫= tasks) ∧ destination result = Some dst ∧
               upd_eq u = ("id", VStr k) ∧
               upd_values u =
                 [("position", VNum p); ("list_id", VStr (droppableId dst))])).
Proof.
  unfold onDragEnd.
  destruct (destination result) as [dst|] eqn:Hdst;
    [|by intros ?%elem_of_nil].
  destruct (decide (type result = "list")) as [Hlist|Hlist].
  - rewrite reorder_lists_eq. intros Hu. left. split; [done|].
    assert (∀ c : Board, (∀ l', l' ∈ c → l' ∈ b) → u ∈ list_writes c →
              upd_from u = "task_lists" ∧
              ∃ k p, k ∈ tl_id <$> b ∧ upd_eq u = ("id", VStr k) ∧
                     upd_values u = [("position", VNum p)]) as Hshape.
    { intros c Hc Hin. apply elem_of_lookup_imap_1 in Hin as (p & l' & -> & Hp).
      split; [done|]. exists (tl_id l'), p. split; [|done].
      apply list_elem_of_fmap_2, Hc. by eapply list_elem_of_lookup_2. }
    destruct (b !! relative_start (length b) (index (source result)))
      as [l|] eqn:Hl; cbn [writes_of] in Hu.
    + apply Hshape in Hu; [done|]. intros l' Hl'.
      rewrite spliced_in_Permutation in Hl'.
      by rewrite (delete_Permutation b _ l Hl).
    + apply Hshape in Hu; [done|]. intros l' Hl'.
      apply elem_of_take in Hl' as (q & Hq & _).
      eapply list_elem_of_delete_inv, list_elem_of_lookup_2. exact Hq.
  - destruct (decide (type result = "task")) as [Htask|Htask];
      [|by intros ?%elem_of_nil].
    destruct (find_list (droppableId (source result)) b) as [[si A]|] eqn:HA;
      [|unfold reorder_tasks; rewrite HA; by intros ?%elem_of_nil].
    destruct (find_list (droppableId dst) b) as [[di B]|] eqn:HB;
      [|unfold reorder_tasks; rewrite HA, HB; by intros ?%elem_of_nil].
    rewrite (reorder_tasks_eq _ _ _ _ _ _ _ HA HB).
    apply find_list_Some in HA as [HsA _]. apply find_list_Some in HB as [HdB HidB].
    destruct (tasks A !! relative_start (length (tasks A)) (index (source result)))
      as [T|] eqn:HT; [|by intros ?%elem_of_nil].
    cbv zeta. cbn [writes_of]. intros Hu. right. split; [done|].
    apply elem_of_lookup_imap_1 in Hu as (p & t & -> & Hp).
    split; [done|]. exists (task_id t), p, dst.
    split; [|by rewrite HidB].
    apply list_elem_of_lookup_2 in Hp.
    destruct (dst_origin b si di _ _ A B T HsA HdB HT t Hp)
      as (li & l & q & t0 & _ & Hl & Ht0 & <- & _).
    apply list_elem_of_fmap_2, list_elem_of_bind. exists l.
    split; by eapply list_elem_of_lookup_2.
Qed.

Lemma drag_writes_only_positions_witness :
  type moveAB = "task" ∧
  upd_from (mkUpdate "tasks" [("position", VNum 1); ("list_id", VStr "B")]
                     ("id", VStr "t1")) = "tasks".
Proof.
  destruct (drag_writes_only_positions boardAB moveAB
              (mkUpdate "tasks" [("position", VNum 1); ("list_id", VStr "B")]
                        ("id", VStr "t1")))
    as [(Hty & _)|(Hty & Hfrom & _)].
  - apply list_elem_of_In. simpl. auto.
  - discriminate Hty.
  - split; [exact Hty | exact Hfrom].
Defined.

(** ** Fetches that complete one after another *)

(** X11: after a run of fetches the state is the data of the last response
    that carries no error (the empty board if that data is null), whatever
    was fetched or edited before; if every response carries an error the
    state is the one from before the run. *)
Theorem reconcile_last_success (responses : list PostgrestResponse) (taskLists : Board) :
  reconcile responses taskLists =
    match last (filter (λ r, error r = None) responses) with
    | Some r => default [] (data r)
    | None => taskLists
    end.
Proof.
  unfold reconcile.
  induction responses as [|r responses IH] using rev_ind; [done|].
  rewrite foldl_snoc, filter_app, filter_cons, filter_nil. simpl.
  destruct (error r) as [e|] eqn:He.
  - rewrite decide_False by done. by rewrite app_nil_r.
  - rewrite decide_True by done. by rewrite last_snoc.
Qed.

(** ** Cancelled and empty prompts *)

(** X12: a creation sends nothing exactly when the prompt was cancelled or
    answered with the empty string; any other answer, blank ones included,
    sends one insert. *)
Theorem creation_aborts_exactly (taskLists : Board) (owner : string)
    (answer : option string) (uuid : string) :
  (addTask owner answer uuid = [] ↔ answer = None ∨ answer = Some "") ∧
  (addTaskList taskLists answer uuid = [] ↔ answer = None ∨ answer = Some "") ∧
  length (addTask owner answer uuid) ≤ 1 ∧
  length (addTaskList taskLists answer uuid) ≤ 1.
Proof.
  destruct answer as [[|c s]|]; simpl; repeat split; intros; try lia;
    try done; try (by left); try (by right); by destruct H.
Qed.

(** ** The position of a new list *)

(** X13: on a store whose list positions are dense for the board in memory,
    the position sent with a new list is larger than the position of every
    stored list: the new list comes last and clashes with none. *)
Theorem new_list_position_is_last (taskLists : Board) (db : Remote)
    (text uuid : string) :
  text ≠ "" →
  dense_lists db (length taskLists) →
  ∀ ins row, ins ∈ addTaskList taskLists (Some text) uuid → row ∈ ins_rows ins →
    ∃ p, ("position", VNum p) ∈ row ∧
         ∀ k r, task_lists_tbl db !! k = Some r →
           ∃ q, r !! "position" = Some (VNum q) ∧ q < p.
Proof.
  intros Htext (Hbound & _ & _) ins row Hins Hrow.
  destruct text as [|c s]; [done|]. simpl in Hins.
  apply list_elem_of_singleton in Hins as ->. simpl in Hrow.
  apply list_elem_of_singleton in Hrow as ->.
  exists (length taskLists). split.
  - rewrite !elem_of_cons. auto.
  - intros k r Hr. by apply (Hbound k r).
Qed.

Lemma new_list_position_is_last_witness :
  ∃ p, ("position", VNum p) ∈
         [("id", VStr "id-9"); ("title", VStr "later"); ("position", VNum 2)] ∧
       ∀ k r, task_lists_tbl (persisted boardAB) !! k = Some r →
         ∃ q, r !! "position" = Some (VNum q) ∧ q < p.
Proof.
  apply (new_list_position_is_last boardAB (persisted boardAB) "later" "id-9"
           ltac:(discriminate)
           (persisted_dense_lists boardAB boardAB_distinct)
           (mkInsert "task_lists"
              [[("id", VStr "id-9"); ("title", VStr "later"); ("position", VNum 2)]])).
  - apply list_elem_of_singleton. reflexivity.
  - apply list_elem_of_singleton. reflexivity.
Defined.

(** ** Deleting leaves the other positions as they are *)

Lemma lookup_delete_rows_id k (tbl : Table) k' :
  keyed tbl →
  delete_rows ("id", VStr k) tbl !! k' =
    if decide (k' = k) then None else tbl !! k'.
Proof.
  intros Hkeyed. unfold delete_rows. apply option_eq_Some. intros r.
  rewrite map_lookup_filter_Some. cbn [fst snd]. case_decide as Hk.
  - split; [|done]. intros [Hr Hne]. subst. by apply Hkeyed in Hr.
  - split; [by intros [? _]|]. intros Hr. split; [done|].
    apply Hkeyed in Hr as ->. congruence.
Qed.

(** Deleting a row that is not the last of its group leaves a hole in the
    positions of the group. *)
Lemma gap_after_delete (tbl : Table) (P : Row → Prop) (keys : list string) p k :
  keyed tbl → NoDup keys →
  (∀ q k', keys !! q = Some k' →
     ∃ r, tbl !! k' = Some r ∧ P r ∧ r !! "position" = Some (VNum q)) →
  (∀ k' r, tbl !! k' = Some r → P r → k' ∈ keys) →
  keys !! p = Some k → S p < length keys →
  ¬ ∃ n, positions_dense (delete_rows ("id", VStr k) tbl) P n.
Proof.
  intros Hkeyed Hnd Hrows Honly Hk Hlt [n (Hbound & Hall & _)].
  destruct (lookup_lt_is_Some_2 keys (S p) Hlt) as [k1 Hk1].
  destruct (Hrows (S p) k1 Hk1) as (r1 & Hr1 & HP1 & Hpos1).
  assert (k1 ≠ k) as Hne.
  { intros ->. pose proof (NoDup_lookup _ _ _ _ Hnd Hk Hk1). lia. }
  destruct (Hbound k1 r1) as (q & Hq & Hqn); [|done|].
  { rewrite lookup_delete_rows_id by done. by rewrite decide_False. }
  rewrite Hpos1 in Hq. injection Hq as <-.
  destruct (Hall p) as (k' & r & Hr & HP & Hpos); [lia|].
  rewrite lookup_delete_rows_id in Hr by done.
  case_decide as Hk'; [done|].
  destruct (list_elem_of_lookup_1 _ _ (Honly k' r Hr HP)) as [q Hq].
  destruct (Hrows q k' Hq) as (r' & Hr' & _ & Hpos').
  rewrite Hr in Hr'. injection Hr' as <-.
  rewrite Hpos in Hpos'. injection Hpos' as <-.
  rewrite Hk in Hq. by injection Hq.
Qed.

(** X14: deleting a task sends one delete, to [tasks], selecting the task by
    its id, and nothing renumbers the list. On the store that holds exactly
    the board, the row of the task is gone, every other row is as it was,
    and, unless the task was the last of its list, the positions of the
    list are no longer dense. *)
Theorem deleted_task_leaves_gap (b : Board) li l p t :
  distinct_ids b →
  b !! li = Some l → tasks l !! p = Some t → S p < length (tasks l) →
  ∃ d, deleteTask (task_id t) = [d] ∧ del_from d = "tasks" ∧
    let tbl' := delete_rows (del_eq d) (tasks_tbl (persisted b)) in
    tbl' !! task_id t = None ∧
    (∀ k, k ≠ task_id t → tbl' !! k = tasks_tbl (persisted b) !! k) ∧
    ¬ ∃ n, positions_dense tbl' (in_list (tl_id l)) n.
Proof.
  intros Hd Hl Ht Hlt. eexists. split; [done|]. split; [done|].
  cbn [del_eq]. pose proof (proj2 (persisted_keyed b)) as Hkeyed.
  split; [|split].
  - rewrite lookup_delete_rows_id by done. by rewrite decide_True.
  - intros k Hk. rewrite lookup_delete_rows_id by done. by rewrite decide_False.
  - apply (gap_after_delete _ _ (task_id <$> tasks l) p); try done.
    + by eapply task_ids_NoDup.
    + intros q k' Hk'. rewrite list_lookup_fmap in Hk'.
      destruct (tasks l !! q) as [t'|] eqn:Ht'; [|done].
      simpl in Hk'. injection Hk' as <-.
      exists (task_row (tl_id l) q t').
      split; [by eapply persisted_task_lookup|].
      split; [apply task_row_list_id|apply task_row_position].
    + intros k' r Hr Hin.
      apply persisted_task_inv in Hr as (li' & l' & q & t' & Hl' & Ht' & <- & ->).
      unfold in_list in Hin. rewrite task_row_list_id in Hin.
      assert (li' = li) as -> by (eapply list_id_unique; eauto; congruence).
      simplify_eq. apply list_elem_of_fmap_2. by eapply list_elem_of_lookup_2.
    + by rewrite list_lookup_fmap, Ht.
    + by rewrite length_fmap.
Qed.

Lemma deleted_task_leaves_gap_witness :
  ∃ d, deleteTask "t1" = [d] ∧ del_from d = "tasks" ∧
    let tbl' := delete_rows (del_eq d) (tasks_tbl (persisted boardAB)) in
    tbl' !! "t1" = None ∧
    (∀ k, k ≠ "t1" → tbl' !! k = tasks_tbl (persisted boardAB) !! k) ∧
    ¬ ∃ n, positions_dense tbl' (in_list "A") n.
Proof.
  apply (deleted_task_leaves_gap boardAB 0 (mkTaskList "A" "todo" [T1; T2; T3])
           0 T1 boardAB_distinct); [reflexivity | reflexivity | simpl; lia].
Defined.

(** X15: deleting a list sends one delete, to [task_lists], selecting the
    list by its id; no delete is sent for its tasks and nothing renumbers
    the board. On the store that holds exactly the board, the row of the
    list is gone, every other list row is as it was, and, unless the list
    was the last of the board, the list positions are no longer dense. *)
Theorem deleted_list_leaves_gap (b : Board) li l :
  distinct_ids b →
  b !! li = Some l → S li < length b →
  ∃ d, deleteTaskList (tl_id l) = [d] ∧ del_from d = "task_lists" ∧
    let tbl' := delete_rows (del_eq d) (task_lists_tbl (persisted b)) in
    tbl' !! tl_id l = None ∧
    (∀ k, k ≠ tl_id l → tbl' !! k = task_lists_tbl (persisted b) !! k) ∧
    ¬ ∃ n, positions_dense tbl' (λ _, True) n.
Proof.
  intros Hd Hl Hlt. eexists. split; [done|]. split; [done|].
  cbn [del_eq]. pose proof (proj1 (persisted_keyed b)) as Hkeyed.
  split; [|split].
  - rewrite lookup_delete_rows_id by done. by rewrite decide_True.
  - intros k Hk. rewrite lookup_delete_rows_id by done. by rewrite decide_False.
  - apply (gap_after_delete _ _ (tl_id <$> b) li); try done.
    + apply Hd.
    + intros q k' Hk'. rewrite list_lookup_fmap in Hk'.
      destruct (b !! q) as [l'|] eqn:Hl'; [|done].
      simpl in Hk'. injection Hk' as <-.
      exists (list_row q l').
      split; [by apply persisted_list_lookup|].
      split; [done|apply list_row_position].
    + intros k' r Hr _.
      apply persisted_list_inv in Hr as (li' & l' & Hl' & <- & _).
      apply list_elem_of_fmap_2. by eapply list_elem_of_lookup_2.
    + by rewrite list_lookup_fmap, Hl.
    + by rewrite length_fmap.
Qed.

Lemma deleted_list_leaves_gap_witness :
  ∃ d, deleteTaskList "A" = [d] ∧ del_from d = "task_lists" ∧
    let tbl' := delete_rows (del_eq d) (task_lists_tbl (persisted boardAB)) in
    tbl' !! "A" = None ∧
    (∀ k, k ≠ "A" → tbl' !! k = task_lists_tbl (persisted boardAB) !! k) ∧
    ¬ ∃ n, positions_dense tbl' (λ _, True) n.
Proof.
  apply (deleted_list_leaves_gap boardAB 0 (mkTaskList "A" "todo" [T1; T2; T3])
           boardAB_distinct); [reflexivity | simpl; lia].
Defined.
